(** * dsc: the SQL connection and its provider (sql_connection.go)

    A shallow embedding of [sqlConnection] and [sqlConnectionProvider].
    The Go code mutates connections through pointers, calls into
    [database/sql] and may panic, so every operation is a computation in
    a small state monad over a [World]: the heap of connections, the
    configuration the provider points to, the wall clock and the log of
    calls made on native handles. *)

From stdpp Require Import base list strings.
From Stdlib Require Import ZArith Lia.

Local Open Scope string_scope.
Local Open Scope list_scope.
Local Open Scope Z_scope.

(** ** Native handles, durations and interface values *)

(** A non-nil [*sql.DB] / [*sql.Tx] is identified by a number; the
    pointer itself is an [option], [None] being Go's [nil]. *)
Definition DbHandle := nat.
Definition TxHandle := nat.

(** Go's [error] values, by their message; [nil] is [None]. *)
Definition Error := string.

(** [time.Duration] is a count of nanoseconds in an int64, [time.Time] an
    instant in nanoseconds. *)
Definition Duration := Z.
Definition Time := Z.

Definition time_Millisecond : Duration := 1000000.
Definition time_Second : Duration := 1000000000.

Definition maxDuration : Duration := 9223372036854775807.
Definition minDuration : Duration := -9223372036854775808.

(** [t.Sub(u)]: the difference, saturated at the ends of int64. *)
Definition time_Sub (t u : Time) : Duration :=
  if maxDuration <? t - u then maxDuration
  else if t - u <? minDuration then minDuration
  else t - u.

(** const block of sql_connection.go *)
Definition connMaxLifetimeMsKey : string := "connMaxLifetimeMs".
Definition defaultConnMaxLifetimeMs : Z := 1000.
Definition maxIdleConnsKey : string := "maxIdleConns".

(** The [interface{}] values that travel through [Unwrap] and [asSQLDb]:
    a dynamic type together with its value. *)
Inductive any : Type :=
| AnyDB (p : option DbHandle)
| AnyTx (p : option TxHandle)
| AnyOther (v : string).

#[global] Instance any_eq_dec : EqDecision any.
Proof. solve_decision. Defined.

(** Every call that reaches the native client, in the order it is made. *)
Inductive Call : Type :=
| SqlOpen (driverName dsn : string)
| DbExec (h : DbHandle) (query : string)
| DbBegin (h : DbHandle)
| DbPing (h : DbHandle)
| DbClose (h : DbHandle)
| DbSetConnMaxLifetime (h : DbHandle) (d : Duration)
| DbSetMaxIdleConns (h : DbHandle) (n : Z)
| TxCommit (t : TxHandle)
| TxRollback (t : TxHandle).

#[global] Instance Call_eq_dec : EqDecision Call.
Proof. solve_decision. Defined.

(** ** Structs *)

(** A [Connection] interface value of this provider is a pointer to a
    [sqlConnection]: an address in the heap of the [World]. *)
Definition Connection := nat.

(** The embedded [*AbstractConnection]; of its fields only the
    last-used timestamp (a [*time.Time]) is read by this file. *)
Record AbstractConnectionT : Type := mkAbstractConnection {
  lastUsed : option Time
}.

Record sqlConnection : Type := mkSqlConnection {
  canHandleTransaction : bool;
  AbstractConnection : option AbstractConnectionT;
  db : option DbHandle;
  tx : option TxHandle;
  init : bool
}.

Record Config : Type := mkConfig {
  DriverName : string;
  Descriptor : string;
  InitSQL : list string;
  MaxPoolSize : Z;
  Parameters : list (string * string)
}.

Record DatastoreDialect : Type := mkDialect {
  CanHandleTransaction : bool
}.

(** A buffered [chan Connection]. *)
Record chan : Type := mkChan {
  chan_cap : Z;
  chan_buf : list Connection
}.

Record AbstractConnectionProviderT : Type := mkAbstractConnectionProvider {
  connectionPool : chan
}.

Record sqlConnectionProvider : Type := mkSqlConnectionProvider {
  AbstractConnectionProvider : AbstractConnectionProviderT
}.

(** ** The world and the monad *)

Record World : Type := mkWorld {
  conns : list sqlConnection;
  config : Config;
  now : Time;
  trace : list Call
}.

Inductive Res (A : Type) : Type :=
| Val (a : A)
| Panic (msg : string).
Arguments Val {A} a.
Arguments Panic {A} msg.

Definition M (A : Type) : Type := World -> Res A * World.

Definition ret {A} (a : A) : M A := fun w => (Val a, w).

Definition bind {A B} (m : M A) (k : A -> M B) : M B :=
  fun w => match m w with
           | (Val a, w') => k a w'
           | (Panic msg, w') => (Panic msg, w')
           end.

Definition panic {A} (msg : string) : M A := fun w => (Panic msg, w).

Notation "'do' x <- m ; k" := (bind m (fun x => k))
  (at level 10, x pattern, m at level 100, k at level 200).

Definition nilDereference : string :=
  "runtime error: invalid memory address or nil pointer dereference".

(** Reading through a pointer. *)
Definition deref {A} (p : option A) : M A :=
  match p with
  | Some a => ret a
  | None => panic nilDereference
  end.

Definition load (c : Connection) : M sqlConnection :=
  fun w => match conns w !! c with
           | Some s => (Val s, w)
           | None => (Panic nilDereference, w)
           end.

(** [c.tx = t] *)
Definition set_tx (c : Connection) (t : option TxHandle) : M unit :=
  do s <- load c;
  fun w => (Val tt,
            mkWorld (<[c := mkSqlConnection (canHandleTransaction s)
                              (AbstractConnection s) (db s) t (init s)]> (conns w))
                    (config w) (now w) (trace w)).

(** [c.AbstractConnection = a] *)
Definition set_AbstractConnection (c : Connection) (a : AbstractConnectionT) : M unit :=
  do s <- load c;
  fun w => (Val tt,
            mkWorld (<[c := mkSqlConnection (canHandleTransaction s)
                              (Some a) (db s) (tx s) (init s)]> (conns w))
                    (config w) (now w) (trace w)).

(** [&sqlConnection{...}]: a fresh address. *)
Definition new (s : sqlConnection) : M Connection :=
  fun w => (Val (length (conns w)),
            mkWorld (conns w ++ [s]) (config w) (now w) (trace w)).

Definition get_config : M Config := fun w => (Val (config w), w).

Definition set_MaxPoolSize (n : Z) : M unit :=
  fun w => (Val tt,
            mkWorld (conns w)
                    (mkConfig (DriverName (config w)) (Descriptor (config w))
                              (InitSQL (config w)) n (Parameters (config w)))
                    (now w) (trace w)).

Definition time_Now : M Time := fun w => (Val (now w), w).

Definition log (e : Call) (w : World) : World :=
  mkWorld (conns w) (config w) (now w) (trace w ++ [e]).

(** [make(chan Connection, n)]. The runtime's [makechan] panics when the
    size is negative or when the buffer would not fit below the
    allocator's maximum; [limit] is the largest size it accepts for this
    element type, a constant of the platform (on 64-bit Linux about 2^44
    for the 16-byte [Connection]). Within the range the allocation is
    taken to succeed. *)
Definition make_chan (limit n : Z) : M chan :=
  if (n <? 0) || (limit <? n) then panic "makechan: size out of range"
  else ret (mkChan n []).

(** ** The native client

    [database/sql] is not part of the package: its answers are those of
    an arbitrary driver, which may depend on everything it was asked
    before. *)
Record Driver : Type := mkDriver {
  drv_Open : list Call -> string -> string -> DbHandle + Error;
  drv_Exec : list Call -> DbHandle -> string -> option Error;
  drv_Begin : list Call -> DbHandle -> TxHandle + Error;
  drv_Ping : list Call -> DbHandle -> option Error;
  drv_Close : list Call -> DbHandle -> option Error;
  drv_Commit : list Call -> TxHandle -> option Error;
  drv_Rollback : list Call -> TxHandle -> option Error
}.

(** ** The rest of package dsc

    What sql_connection.go uses from the other files of the package:
    the two sentinels compared in [Unwrap], the cast [asSQLDb], the
    [Config] accessors, the dialect registry, the constructor of the
    embedded connection and the pool's own [Get]. They are taken as they
    come; [fmt_v] is the [%v] rendering of an interface value. *)
Record Package : Type := mkPackage {
  sqlDbPointer : any;
  sqlTxtPointer : any;
  fmt_v : any -> string;
  asSQLDb : any -> option DbHandle * option Error;
  DsnDescriptor : Config -> string * option Error;
  Has : Config -> string -> bool;
  GetDuration : Config -> string -> Duration -> Z -> Duration;
  GetInt : Config -> string -> Z -> Z;
  GetDatastoreDialect : string -> DatastoreDialect;
  NewAbstractConnection : Config -> Connection -> AbstractConnectionT;
  AbstractConnectionProvider_Get : M (option Connection * option Error)
}.

(** ** Operations *)

Section Operations.

Context (D : Driver) (P : Package).

(** *** Methods of [*sql.DB] and [*sql.Tx]

    Each one dereferences its receiver, asks the driver and is logged. *)

Definition sql_Open (driverName dsn : string) : M (option DbHandle * option Error) :=
  fun w => (Val match drv_Open D (trace w) driverName dsn with
                | inl h => (Some h, None)
                | inr e => (None, Some e)
                end,
            log (SqlOpen driverName dsn) w).

Definition DB_Exec (db : option DbHandle) (query : string) : M (option Error) :=
  do h <- deref db;
  fun w => (Val (drv_Exec D (trace w) h query), log (DbExec h query) w).

Definition DB_Begin (db : option DbHandle) : M (option TxHandle * option Error) :=
  do h <- deref db;
  fun w => (Val match drv_Begin D (trace w) h with
                | inl t => (Some t, None)
                | inr e => (None, Some e)
                end,
            log (DbBegin h) w).

Definition DB_Ping (db : option DbHandle) : M (option Error) :=
  do h <- deref db;
  fun w => (Val (drv_Ping D (trace w) h), log (DbPing h) w).

Definition DB_Close (db : option DbHandle) : M (option Error) :=
  do h <- deref db;
  fun w => (Val (drv_Close D (trace w) h), log (DbClose h) w).

Definition DB_SetConnMaxLifetime (db : option DbHandle) (d : Duration) : M unit :=
  do h <- deref db;
  fun w => (Val tt, log (DbSetConnMaxLifetime h d) w).

Definition DB_SetMaxIdleConns (db : option DbHandle) (n : Z) : M unit :=
  do h <- deref db;
  fun w => (Val tt, log (DbSetMaxIdleConns h n) w).

Definition Tx_Commit (tx : option TxHandle) : M (option Error) :=
  do t <- deref tx;
  fun w => (Val (drv_Commit D (trace w) t), log (TxCommit t) w).

Definition Tx_Rollback (tx : option TxHandle) : M (option Error) :=
  do t <- deref tx;
  fun w => (Val (drv_Rollback D (trace w) t), log (TxRollback t) w).

(** *** sqlConnection *)

Definition CloseNow (c : Connection) : M (option Error) :=
  do s <- load c;
  match asSQLDb P (AnyDB (db s)) with
  | (_, Some err) => ret (Some err)
  | (db, None) =>
      do _ <- DB_SetConnMaxLifetime db (1000 * time_Millisecond);
      DB_Close db
  end.

Definition Begin (c : Connection) : M (option Error) :=
  do s <- load c;
  if negb (canHandleTransaction s) then ret None
  else
    match asSQLDb P (AnyDB (db s)) with
    | (_, Some err) => ret (Some err)
    | (db, None) =>
        do r <- DB_Begin db;
        match r with
        | (_, Some err) => ret (Some err)
        | (tx, None) =>
            do _ <- set_tx c tx;
            ret None
        end
    end.

Definition Unwrap (c : Connection) (target : any) : M any :=
  if decide (target = sqlDbPointer P) then
    do s <- load c; ret (AnyDB (db s))
  else if decide (target = sqlTxtPointer P) then
    do s <- load c; ret (AnyTx (tx s))
  else panic ("unsupported target type " +:+ fmt_v P target).

Definition Commit (c : Connection) : M (option Error) :=
  do s <- load c;
  if negb (canHandleTransaction s) then ret None
  else
    match tx s with
    | None => ret (Some "no active transaction")
    | Some _ =>
        do err <- Tx_Commit (tx s);
        do _ <- set_tx c None;
        ret err
    end.

Definition Rollback (c : Connection) : M (option Error) :=
  do s <- load c;
  if negb (canHandleTransaction s) then ret None
  else
    match tx s with
    | None => ret (Some "no active transaction")
    | Some _ =>
        do err <- Tx_Rollback (tx s);
        do _ <- set_tx c None;
        ret err
    end.

(** [LastUsed], promoted from the embedded [*AbstractConnection]. *)
Definition LastUsed (c : Connection) : M (option Time) :=
  do s <- load c;
  do a <- deref (AbstractConnection s);
  ret (lastUsed a).

(** *** sqlConnectionProvider *)

(** The [for _, SQL := range config.InitSQL] loop of [NewConnection]:
    [None] when every statement ran, otherwise the error returned from
    inside the loop. *)
Fixpoint execInitSQL (cfg : Config) (db : option DbHandle) (stmts : list string)
  : M (option Error) :=
  match stmts with
  | [] => ret None
  | SQL :: rest =>
      do err <- DB_Exec db SQL;
      match err with
      | Some e =>
          ret (Some ("failed to execute init SQL " +:+ SQL +:+ " on "
                       +:+ Descriptor cfg +:+ " due to " +:+ e))
      | None => execInitSQL cfg db rest
      end
  end.

Definition NewConnection : M (option Connection * option Error) :=
  do cfg <- get_config;
  match DsnDescriptor P cfg with
  | (_, Some err) => ret (None, Some err)
  | (dsn, None) =>
      do r <- sql_Open (DriverName cfg) dsn;
      match r with
      | (_, Some err) =>
          ret (None, Some ("failed to open connection to " +:+ DriverName cfg
                             +:+ " on " +:+ Descriptor cfg +:+ " due to " +:+ err))
      | (db, None) =>
          do failed <- (if (0 <? Z.of_nat (length (InitSQL cfg)))
                        then execInitSQL cfg db (InitSQL cfg)
                        else ret None);
          match failed with
          | Some err => ret (None, Some err)
          | None =>
              let dialect := GetDatastoreDialect P (DriverName cfg) in
              do connection <- new (mkSqlConnection (CanHandleTransaction dialect)
                                                    None db None false);
              let super := NewAbstractConnection P cfg connection in
              do _ <- set_AbstractConnection connection super;
              ret (Some connection, None)
          end
      end
  end.

Definition Get : M (option Connection * option Error) :=
  do r <- AbstractConnectionProvider_Get P;
  match r with
  | (_, Some err) => ret (None, Some err)
  | (result, None) =>
      do c <- deref result;
      do target <- Unwrap c (sqlDbPointer P);
      match asSQLDb P target with
      | (_, Some err) => ret (None, Some err)
      | (db, None) =>
          do last <- LastUsed c;
          do err <- match last with
                    | None => ret None
                    | Some t =>
                        do n <- time_Now;
                        if 60 * time_Second <? time_Sub n t
                        then DB_Ping db
                        else ret None
                    end;
          match err with
          | None => ret (result, None)
          | Some _ =>
              do cfg <- get_config;
              do _ <- (if Has P cfg connMaxLifetimeMsKey then
                         let connMaxLifetime :=
                           GetDuration P cfg connMaxLifetimeMsKey
                                       time_Millisecond defaultConnMaxLifetimeMs in
                         if negb (connMaxLifetime =? 0)
                         then DB_SetConnMaxLifetime db connMaxLifetime
                         else ret tt
                       else ret tt);
              do _ <- (if Has P cfg maxIdleConnsKey
                       then DB_SetMaxIdleConns db (GetInt P cfg maxIdleConnsKey 1)
                       else ret tt);
              do r' <- NewConnection;
              match r' with
              | (_, Some err') => ret (None, Some err')
              | (result', None) => ret (result', None)
              end
          end
      end
  end.

(** Modelled from the spec: [NewAbstractConnectionProvider], which is in
    another file of the package. The provider it returns holds the
    bounded pool container it was given ("pool: bounded container of idle
    Connection instances"). *)
Definition NewAbstractConnectionProvider (pool : chan) : AbstractConnectionProviderT :=
  mkAbstractConnectionProvider pool.

Definition newSQLConnectionProvider (limit : Z) : M sqlConnectionProvider :=
  do cfg <- get_config;
  do _ <- (if MaxPoolSize cfg =? 0 then set_MaxPoolSize 1 else ret tt);
  do cfg' <- get_config;
  do pool <- make_chan limit (MaxPoolSize cfg');
  let super := NewAbstractConnectionProvider pool in
  ret (mkSqlConnectionProvider super).

End Operations.

(** ** Transaction control as data

    The three transaction methods and the five methods of a connection,
    so that statements can range over "any operation" and over call
    sequences. *)

Inductive TxOp : Type := OpBegin | OpCommit | OpRollback.

Definition txOp (D : Driver) (P : Package) (op : TxOp) (c : Connection)
  : M (option Error) :=
  match op with
  | OpBegin => Begin D P c
  | OpCommit => Commit D c
  | OpRollback => Rollback D c
  end.

Fixpoint txOps (D : Driver) (P : Package) (ops : list TxOp) (c : Connection)
  : M (list (option Error)) :=
  match ops with
  | [] => ret []
  | op :: rest =>
      do e <- txOp D P op c;
      do es <- txOps D P rest c;
      ret (e :: es)
  end.

Inductive ConnOp : Type :=
| DoBegin | DoCommit | DoRollback | DoCloseNow | DoUnwrap (target : any).

(** The world a connection operation leaves behind, whether it returns
    or panics. *)
Definition after (D : Driver) (P : Package) (op : ConnOp) (c : Connection)
  (w : World) : World :=
  match op with
  | DoBegin => snd (Begin D P c w)
  | DoCommit => snd (Commit D c w)
  | DoRollback => snd (Rollback D c w)
  | DoCloseNow => snd (CloseNow D P c w)
  | DoUnwrap target => snd (Unwrap P c target w)
  end.

(** The transaction handles a connection holds. *)
Definition storedTx (s : sqlConnection) : list TxHandle :=
  match tx s with
  | Some t => [t]
  | None => []
  end.

(** The invariant of the data model, for one connection and for the heap. *)
Definition connInv (s : sqlConnection) : Prop :=
  (is_Some (tx s) -> canHandleTransaction s = true) /\
  (length (storedTx s) <= 1)%nat.

Definition worldInv (w : World) : Prop :=
  forall (c : Connection) (s : sqlConnection), conns w !! c = Some s -> connInv s.

Definition noActiveTransaction : Error := "no active transaction".

(** A connection with its transaction handle replaced. *)
Definition withTx (s : sqlConnection) (t : option TxHandle) : sqlConnection :=
  mkSqlConnection (canHandleTransaction s) (AbstractConnection s) (db s) t (init s).

(** ** Specification vocabulary for the provider *)

(** The world after further native calls. *)
Definition logs (es : list Call) (w : World) : World :=
  mkWorld (conns w) (config w) (now w) (trace w ++ es).

(** [msg] contains [part]. *)
Definition Includes (msg part : string) : Prop :=
  exists pre post : string, msg = pre +:+ part +:+ post.

Fixpoint prefixb (p s : string) : bool :=
  match p, s with
  | EmptyString, _ => true
  | String a p', String b s' => if Ascii.eqb a b then prefixb p' s' else false
  | String _ _, EmptyString => false
  end.

Fixpoint includesb (msg part : string) : bool :=
  prefixb part msg ||
  match msg with
  | EmptyString => false
  | String _ msg' => includesb msg' part
  end.

(** The message [NewConnection] builds when an initialization statement fails. *)
Definition initSQLError (cfg : Config) (SQL : string) (cause : Error) : Error :=
  "failed to execute init SQL " +:+ SQL +:+ " on " +:+ Descriptor cfg
    +:+ " due to " +:+ cause.

(** The statements [stmts] all succeed on handle [h] when run in order
    after the calls [tr]. *)
Definition initOk (D : Driver) (h : DbHandle) (tr : list Call) (stmts : list string)
  : Prop :=
  forall (i : nat) (q : string),
    stmts !! i = Some q ->
    drv_Exec D (tr ++ (DbExec h <$> take i stmts)) h q = None.

(** More than 60 seconds lie between [t] and [n]. *)
Definition stale (n t : Time) : Prop := 60 * time_Second < n - t.

(** The tuning calls [Get] makes for the keys present in the config. *)
Definition tuningCalls (P : Package) (cfg : Config) (h : DbHandle) : list Call :=
  (if Has P cfg connMaxLifetimeMsKey then
     if GetDuration P cfg connMaxLifetimeMsKey time_Millisecond
                    defaultConnMaxLifetimeMs =? 0
     then []
     else [DbSetConnMaxLifetime h
             (GetDuration P cfg connMaxLifetimeMsKey time_Millisecond
                          defaultConnMaxLifetimeMs)]
   else []) ++
  (if Has P cfg maxIdleConnsKey
   then [DbSetMaxIdleConns h (GetInt P cfg maxIdleConnsKey 1)]
   else []).

Definition isTuning (e : Call) : bool :=
  match e with
  | DbSetConnMaxLifetime _ _ | DbSetMaxIdleConns _ _ => true
  | _ => false
  end.

(** What [Get] returns for an outcome of [NewConnection]. *)
Definition relay (r : Res (option Connection * option Error) * World)
  : Res (option Connection * option Error) * World :=
  match r with
  | (Val (_, Some err), w) => (Val (None, Some err), w)
  | (Val (result, None), w) => (Val (result, None), w)
  | (Panic msg, w) => (Panic msg, w)
  end.

(** The connection [NewConnection] builds around the handle [h]. *)
Definition freshConnection (P : Package) (w : World) (h : DbHandle) : sqlConnection :=
  mkSqlConnection
    (CanHandleTransaction (GetDatastoreDialect P (DriverName (config w))))
    (Some (NewAbstractConnection P (config w) (length (conns w))))
    (Some h) None false.

(** A computation that leaves the configuration as it found it, whether
    it returns or panics. *)
Definition keepsConfig {A} (m : M A) : Prop :=
  forall w, config (snd (m w)) = config w.

(** ** A sample installation

    A concrete package, driver and world on which the statements below
    are run. *)

Definition sampleConfig (maxPoolSize : Z) : Config :=
  mkConfig "pg" "localhost/orders"
           ["SET search_path = app"; "SET x = 1"] maxPoolSize
           [("connMaxLifetimeMs", "5000"); ("maxIdleConns", "2")].

Definition hasKey (cfg : Config) (key : string) : bool :=
  existsb (fun kv => String.eqb (fst kv) key) (Parameters cfg).

(** The pool hands out the connection at address 0. *)
Definition samplePackage : Package :=
  mkPackage
    (AnyDB None) (AnyTx None)
    (fun a => match a with AnyOther v => v | _ => "<nil>" end)
    (fun a => match a with
              | AnyDB p => (p, None)
              | _ => (None, Some "failed cast as sql.DB")
              end)
    (fun cfg => (Descriptor cfg, None))
    hasKey
    (fun cfg key unit default => 5000 * unit)
    (fun cfg key default => 2)
    (fun driverName => mkDialect (String.eqb driverName "pg"))
    (fun cfg c => mkAbstractConnection None)
    (fun w => (Val (Some 0%nat, None), w)).

(** A driver that refuses the statement [bad] and, when [down], every ping. *)
Definition sampleDriver (down : bool) (bad : string) : Driver :=
  mkDriver
    (fun tr driverName dsn => inl (length tr))
    (fun tr h q => if String.eqb q bad then Some "syntax error" else None)
    (fun tr h => inl (length tr))
    (fun tr h => if down then Some "bad connection" else None)
    (fun tr h => None)
    (fun tr t => if down then Some "bad connection" else None)
    (fun tr t => None).

Definition sampleConnection (transactional : bool) (t : option TxHandle)
  (last : option Time) : sqlConnection :=
  mkSqlConnection transactional (Some (mkAbstractConnection last)) (Some 7%nat) t false.

(** One pooled connection; the clock stands at 100 s. *)
Definition sampleWorld (s : sqlConnection) : World :=
  mkWorld [s] (sampleConfig 0) (100 * time_Second) [].

(** Sample worlds: a connection of a dialect without transactions, a
    transactional one that is idle, one with the transaction 3 open, and
    one last used at time 0, a hundred seconds ago. *)
Definition worldCsv : World := sampleWorld (sampleConnection false None None).
Definition worldIdle : World := sampleWorld (sampleConnection true None None).
Definition worldActive : World := sampleWorld (sampleConnection true (Some 3%nat) None).
Definition worldOld : World := sampleWorld (sampleConnection true None (Some 0)).

(** ** Vocabulary for the remaining paths *)

(** The message [NewConnection] builds when [sql.Open] fails. *)
Definition openError (cfg : Config) (cause : Error) : Error :=
  "failed to open connection to " +:+ DriverName cfg +:+ " on "
    +:+ Descriptor cfg +:+ " due to " +:+ cause.

(** Calls that open a handle or run a statement on it. *)
Definition isOpenOrExec (e : Call) : bool :=
  match e with
  | SqlOpen _ _ | DbExec _ _ => true
  | _ => false
  end.

(** Calls that end the life of a handle or touch a transaction. *)
Definition isCloseOrTx (e : Call) : bool :=
  match e with
  | DbClose _ | DbBegin _ | TxCommit _ | TxRollback _ => true
  | _ => false
  end.

(** A package like [samplePackage] with its cast, its DSN accessor and
    its pool replaced. *)
Definition samplePackageWith
    (cast : any -> option DbHandle * option Error)
    (dsn : Config -> string * option Error)
    (pool : M (option Connection * option Error)) : Package :=
  mkPackage
    (sqlDbPointer samplePackage) (sqlTxtPointer samplePackage)
    (fmt_v samplePackage) cast dsn
    (Has samplePackage) (GetDuration samplePackage) (GetInt samplePackage)
    (GetDatastoreDialect samplePackage) (NewAbstractConnection samplePackage)
    pool.

(** A driver whose server refuses new connections and new transactions. *)
Definition refusingDriver : Driver :=
  mkDriver
    (fun tr driverName dsn => inr "connection refused")
    (fun tr h q => None)
    (fun tr h => inr "too many clients")
    (fun tr h => None)
    (fun tr h => None)
    (fun tr t => None)
    (fun tr t => None).

(** The largest channel size of a 64-bit Linux runtime for 16-byte
    elements: what fits in 2^48 bytes beside a 96-byte header. *)
Definition sampleChanLimit : Z := (2 ^ 48 - 96) / 16.

(** The log once [Get] has pinged the stale handle [h] and made the
    tuning calls on it. *)
Definition afterTuning (P : Package) (w1 : World) (h : DbHandle) : list Call :=
  trace w1 ++ DbPing h :: tuningCalls P (config w1) h.

(** A call made on the handle [h]. *)
Definition onHandle (h : DbHandle) (e : Call) : bool :=
  match e with
  | SqlOpen _ _ => false
  | DbExec h' _ | DbBegin h' | DbPing h' | DbClose h'
  | DbSetConnMaxLifetime h' _ | DbSetMaxIdleConns h' _ => Nat.eqb h' h
  | TxCommit _ | TxRollback _ => false
  end.

(** A world whose config asks for 2^62 connections. *)
Definition worldHuge : World :=
  mkWorld [] (sampleConfig (2 ^ 62)) (100 * time_Second) [].

(** A world whose config asks for a negative pool size. *)
Definition worldNegative : World :=
  mkWorld [] (sampleConfig (-1)) (100 * time_Second) [].

(** Packages whose cast fails, whose DSN accessor fails, and whose pool
    reports an error while handing out connection 0. *)
Definition packageBadCast : Package :=
  samplePackageWith (fun a => (None, Some "failed cast as sql.DB"))
                    (DsnDescriptor samplePackage)
                    (AbstractConnectionProvider_Get samplePackage).

Definition packageBadDsn : Package :=
  samplePackageWith (asSQLDb samplePackage)
                    (fun cfg => ("", Some "missing credentials"))
                    (AbstractConnectionProvider_Get samplePackage).

Definition packageBadPool : Package :=
  samplePackageWith (asSQLDb samplePackage)
                    (DsnDescriptor samplePackage)
                    (fun w => (Val (Some 0%nat, Some "pool exhausted"), w)).

(** * Proofs *)

(** ** Running the monad *)

Lemma bind_val {A B} (m : M A) (k : A -> M B) w a w' :
  m w = (Val a, w') -> bind m k w = k a w'.
Proof. intros H. unfold bind. by rewrite H. Qed.

Lemma bind_panic {A B} (m : M A) (k : A -> M B) w msg w' :
  m w = (Panic msg, w') -> bind m k w = (Panic msg, w').
Proof. intros H. unfold bind. by rewrite H. Qed.

Lemma load_val c s w : conns w !! c = Some s -> load c w = (Val s, w).
Proof. intros H. unfold load. by rewrite H. Qed.

Lemma load_panic c w : conns w !! c = None -> load c w = (Panic nilDereference, w).
Proof. intros H. unfold load. by rewrite H. Qed.

Lemma set_tx_val c s t w :
  conns w !! c = Some s ->
  set_tx c t w =
    (Val tt, mkWorld (<[c := withTx s t]> (conns w)) (config w) (now w) (trace w)).
Proof. intros H. unfold set_tx. by rewrite (bind_val _ _ _ _ _ (load_val _ _ _ H)). Qed.

Lemma world_eta w : mkWorld (conns w) (config w) (now w) (trace w) = w.
Proof. by destruct w. Qed.

Section Native.

Context (D : Driver).

Lemma DB_Exec_some h q w :
  DB_Exec D (Some h) q w = (Val (drv_Exec D (trace w) h q), log (DbExec h q) w).
Proof. reflexivity. Qed.

Lemma DB_Begin_some h w :
  DB_Begin D (Some h) w =
    (Val match drv_Begin D (trace w) h with
         | inl t => (Some t, None)
         | inr e => (None, Some e)
         end, log (DbBegin h) w).
Proof. reflexivity. Qed.

Lemma DB_Ping_some h w :
  DB_Ping D (Some h) w = (Val (drv_Ping D (trace w) h), log (DbPing h) w).
Proof. reflexivity. Qed.

Lemma DB_SetConnMaxLifetime_some h d w :
  DB_SetConnMaxLifetime (Some h) d w = (Val tt, log (DbSetConnMaxLifetime h d) w).
Proof. reflexivity. Qed.

Lemma DB_SetMaxIdleConns_some h n w :
  DB_SetMaxIdleConns (Some h) n w = (Val tt, log (DbSetMaxIdleConns h n) w).
Proof. reflexivity. Qed.

End Native.

Section Connection.

Context (D : Driver) (P : Package).

Lemma Begin_nontransactional c s w :
  conns w !! c = Some s -> canHandleTransaction s = false ->
  Begin D P c w = (Val None, w).
Proof.
  intros Hc Hf. unfold Begin.
  rewrite (bind_val _ _ _ _ _ (load_val _ _ _ Hc)), Hf. done.
Qed.

Lemma Commit_nontransactional c s w :
  conns w !! c = Some s -> canHandleTransaction s = false ->
  Commit D c w = (Val None, w).
Proof.
  intros Hc Hf. unfold Commit.
  rewrite (bind_val _ _ _ _ _ (load_val _ _ _ Hc)), Hf. done.
Qed.

Lemma Rollback_nontransactional c s w :
  conns w !! c = Some s -> canHandleTransaction s = false ->
  Rollback D c w = (Val None, w).
Proof.
  intros Hc Hf. unfold Rollback.
  rewrite (bind_val _ _ _ _ _ (load_val _ _ _ Hc)), Hf. done.
Qed.

Lemma txOp_nontransactional op c s w :
  conns w !! c = Some s -> canHandleTransaction s = false ->
  txOp D P op c w = (Val None, w).
Proof.
  destruct op; simpl;
    eauto using Begin_nontransactional, Commit_nontransactional,
                Rollback_nontransactional.
Qed.

(** C1. On a connection whose capability flag is false, [Begin], [Commit]
    and [Rollback] return nil and leave the whole world as it was: no
    call reaches a native handle (the log is the same) and no field of
    any connection is written, so no transaction handle is created or
    stored. The same holds for every sequence of such calls, in any
    order. *)
Theorem C1_nontransactional_noop (c : Connection) (s : sqlConnection) (w : World) :
  conns w !! c = Some s ->
  canHandleTransaction s = false ->
  Begin D P c w = (Val None, w) /\
  Commit D c w = (Val None, w) /\
  Rollback D c w = (Val None, w) /\
  forall ops : list TxOp,
    txOps D P ops c w = (Val (replicate (length ops) None), w).
Proof.
  intros Hc Hf.
  split; [by eapply Begin_nontransactional|].
  split; [by eapply Commit_nontransactional|].
  split; [by eapply Rollback_nontransactional|].
  induction ops as [|op ops IH]; [done|].
  simpl.
  rewrite (bind_val _ _ _ _ _ (txOp_nontransactional op _ _ _ Hc Hf)).
  by rewrite (bind_val _ _ _ _ _ IH).
Qed.

Lemma Commit_no_tx c s w :
  conns w !! c = Some s -> canHandleTransaction s = true -> tx s = None ->
  Commit D c w = (Val (Some noActiveTransaction), w).
Proof.
  intros Hc Ht Hn. unfold Commit.
  rewrite (bind_val _ _ _ _ _ (load_val _ _ _ Hc)), Ht, Hn. done.
Qed.

Lemma Rollback_no_tx c s w :
  conns w !! c = Some s -> canHandleTransaction s = true -> tx s = None ->
  Rollback D c w = (Val (Some noActiveTransaction), w).
Proof.
  intros Hc Ht Hn. unfold Rollback.
  rewrite (bind_val _ _ _ _ _ (load_val _ _ _ Hc)), Ht, Hn. done.
Qed.

(** C2. On a transactional connection whose transaction handle is nil,
    [Commit] and [Rollback] return the error "no active transaction" and
    change nothing: the handle is still nil afterwards. *)
Theorem C2_no_active_transaction (c : Connection) (s : sqlConnection) (w : World) :
  conns w !! c = Some s ->
  canHandleTransaction s = true ->
  tx s = None ->
  Commit D c w = (Val (Some "no active transaction"), w) /\
  Rollback D c w = (Val (Some "no active transaction"), w) /\
  tx <$> conns (snd (Commit D c w)) !! c = Some None /\
  tx <$> conns (snd (Rollback D c w)) !! c = Some None.
Proof.
  intros Hc Ht Hn.
  rewrite (Commit_no_tx _ _ _ Hc Ht Hn), (Rollback_no_tx _ _ _ Hc Ht Hn).
  simpl. rewrite Hc. simpl. rewrite Hn. done.
Qed.

Lemma Commit_active c s t w :
  conns w !! c = Some s -> canHandleTransaction s = true -> tx s = Some t ->
  Commit D c w =
    (Val (drv_Commit D (trace w) t),
     mkWorld (<[c := withTx s None]> (conns w)) (config w) (now w)
             (trace w ++ [TxCommit t])).
Proof.
  intros Hc Ht Hs. unfold Commit.
  rewrite (bind_val _ _ _ _ _ (load_val _ _ _ Hc)), Ht, Hs. simpl.
  unfold Tx_Commit, bind at 1 2. simpl.
  erewrite bind_val; [|by apply set_tx_val]. done.
Qed.

Lemma Rollback_active c s t w :
  conns w !! c = Some s -> canHandleTransaction s = true -> tx s = Some t ->
  Rollback D c w =
    (Val (drv_Rollback D (trace w) t),
     mkWorld (<[c := withTx s None]> (conns w)) (config w) (now w)
             (trace w ++ [TxRollback t])).
Proof.
  intros Hc Ht Hs. unfold Rollback.
  rewrite (bind_val _ _ _ _ _ (load_val _ _ _ Hc)), Ht, Hs. simpl.
  unfold Tx_Rollback, bind at 1 2. simpl.
  erewrite bind_val; [|by apply set_tx_val]. done.
Qed.

End Connection.

Section ConnectionState.

Context (D : Driver) (P : Package).

Lemma lookup_withTx (l : list sqlConnection) c s t :
  l !! c = Some s -> <[c := withTx s t]> l !! c = Some (withTx s t).
Proof.
  intros H. apply list_lookup_insert_eq. by eapply lookup_lt_Some.
Qed.

(** C3. On a transactional connection with an active transaction, [Commit]
    calls the driver once and clears the stored handle whatever the
    driver answers ([drv_Commit] is arbitrary: nil or an error), so that
    a [Commit] or [Rollback] that follows with no [Begin] in between
    returns "no active transaction"; and symmetrically for [Rollback]. *)
Theorem C3_commit_clears_handle (c : Connection) (s : sqlConnection)
    (t : TxHandle) (w : World) :
  conns w !! c = Some s ->
  canHandleTransaction s = true ->
  tx s = Some t ->
  (exists w',
      Commit D c w = (Val (drv_Commit D (trace w) t), w') /\
      conns w' !! c = Some (withTx s None) /\
      trace w' = trace w ++ [TxCommit t] /\
      Commit D c w' = (Val (Some "no active transaction"), w') /\
      Rollback D c w' = (Val (Some "no active transaction"), w')) /\
  (exists w',
      Rollback D c w = (Val (drv_Rollback D (trace w) t), w') /\
      conns w' !! c = Some (withTx s None) /\
      trace w' = trace w ++ [TxRollback t] /\
      Commit D c w' = (Val (Some "no active transaction"), w') /\
      Rollback D c w' = (Val (Some "no active transaction"), w')).
Proof.
  intros Hc Ht Hs. split.
  - eexists. split; [by apply Commit_active|].
    assert (Hl := lookup_withTx (conns w) c s None Hc).
    split; [done|]. split; [done|].
    split; [by eapply Commit_no_tx | by eapply Rollback_no_tx].
  - eexists. split; [by apply Rollback_active|].
    assert (Hl := lookup_withTx (conns w) c s None Hc).
    split; [done|]. split; [done|].
    split; [by eapply Commit_no_tx | by eapply Rollback_no_tx].
Qed.

(** *** The invariant *)

Lemma connInv_withTx s t :
  canHandleTransaction s = true -> connInv (withTx s t).
Proof.
  intros H. split; [done|]. unfold storedTx. simpl. destruct t; simpl; lia.
Qed.

Lemma connInv_withTx_None s : connInv (withTx s None).
Proof. split; [by intros [? ?]|]. simpl. lia. Qed.

Lemma worldInv_insert w c s' l :
  worldInv w -> connInv s' -> conns l = <[c := s']> (conns w) -> worldInv l.
Proof.
  intros Hw Hs Hl c' s0. rewrite Hl. intros H.
  destruct (decide (c = c')) as [->|Hne].
  - destruct (decide (c' < length (conns w))%nat).
    + rewrite list_lookup_insert_eq in H by done. by simplify_eq.
    + rewrite list_insert_ge in H by lia. by eapply Hw.
  - rewrite list_lookup_insert_ne in H by done. by eapply Hw.
Qed.

Lemma worldInv_same_conns w w' :
  worldInv w -> conns w' = conns w -> worldInv w'.
Proof. intros Hw He c s. rewrite He. apply Hw. Qed.

Lemma Begin_conns c w :
  conns (snd (Begin D P c w)) = conns w \/
  exists s t, conns w !! c = Some s /\ canHandleTransaction s = true /\
              conns (snd (Begin D P c w)) = <[c := withTx s t]> (conns w).
Proof.
  unfold Begin. destruct (conns w !! c) as [s|] eqn:Hc.
  2:{ rewrite (bind_panic _ _ _ _ _ (load_panic _ _ Hc)). by left. }
  rewrite (bind_val _ _ _ _ _ (load_val _ _ _ Hc)).
  destruct (canHandleTransaction s) eqn:Ht; simpl; [|by left].
  destruct (asSQLDb P (AnyDB (db s))) as [d [e|]]; [by left|].
  destruct d as [h|]; [|by left].
  rewrite (bind_val _ _ _ _ _ (DB_Begin_some D h w)).
  destruct (drv_Begin D (trace w) h) as [t|e]; [|by left].
  right. exists s, (Some t). split; [done|]. split; [done|].
  erewrite bind_val; [|by apply set_tx_val]. done.
Qed.

Lemma Commit_conns c w :
  conns (snd (Commit D c w)) = conns w \/
  exists s, conns w !! c = Some s /\
            conns (snd (Commit D c w)) = <[c := withTx s None]> (conns w).
Proof.
  unfold Commit. destruct (conns w !! c) as [s|] eqn:Hc.
  2:{ rewrite (bind_panic _ _ _ _ _ (load_panic _ _ Hc)). by left. }
  destruct (canHandleTransaction s) eqn:Ht.
  2:{ rewrite (bind_val _ _ _ _ _ (load_val _ _ _ Hc)), Ht. by left. }
  destruct (tx s) as [t|] eqn:Hs.
  2:{ rewrite (bind_val _ _ _ _ _ (load_val _ _ _ Hc)), Ht, Hs. by left. }
  right. exists s. split; [done|].
  fold (Commit D c). by rewrite (Commit_active D c s t w Hc Ht Hs).
Qed.

Lemma Rollback_conns c w :
  conns (snd (Rollback D c w)) = conns w \/
  exists s, conns w !! c = Some s /\
            conns (snd (Rollback D c w)) = <[c := withTx s None]> (conns w).
Proof.
  unfold Rollback. destruct (conns w !! c) as [s|] eqn:Hc.
  2:{ rewrite (bind_panic _ _ _ _ _ (load_panic _ _ Hc)). by left. }
  destruct (canHandleTransaction s) eqn:Ht.
  2:{ rewrite (bind_val _ _ _ _ _ (load_val _ _ _ Hc)), Ht. by left. }
  destruct (tx s) as [t|] eqn:Hs.
  2:{ rewrite (bind_val _ _ _ _ _ (load_val _ _ _ Hc)), Ht, Hs. by left. }
  right. exists s. split; [done|].
  fold (Rollback D c). by rewrite (Rollback_active D c s t w Hc Ht Hs).
Qed.

Lemma CloseNow_conns c w : conns (snd (CloseNow D P c w)) = conns w.
Proof.
  unfold CloseNow. destruct (conns w !! c) as [s|] eqn:Hc.
  2:{ by rewrite (bind_panic _ _ _ _ _ (load_panic _ _ Hc)). }
  rewrite (bind_val _ _ _ _ _ (load_val _ _ _ Hc)).
  destruct (asSQLDb P (AnyDB (db s))) as [d [e|]]; [done|].
  by destruct d.
Qed.

Lemma Unwrap_world c target w : snd (Unwrap P c target w) = w.
Proof.
  unfold Unwrap. repeat case_decide; [| |done];
    (destruct (conns w !! c) as [s|] eqn:Hc;
     [by rewrite (bind_val _ _ _ _ _ (load_val _ _ _ Hc))
     |by rewrite (bind_panic _ _ _ _ _ (load_panic _ _ Hc))]).
Qed.

(** C6. Every operation on a connection, whether it returns or panics,
    preserves the invariant of the heap: each connection stores a
    transaction handle only if its capability flag is true, and stores
    at most one. *)
Theorem C6_operations_preserve_invariant (op : ConnOp) (c : Connection) (w : World) :
  worldInv w -> worldInv (after D P op c w).
Proof.
  intros Hw. destruct op; simpl.
  - destruct (Begin_conns c w) as [He|(s & t & Hc & Ht & He)].
    + by eapply worldInv_same_conns.
    + eapply worldInv_insert; [done| |done]. by apply connInv_withTx.
  - destruct (Commit_conns c w) as [He|(s & Hc & He)].
    + by eapply worldInv_same_conns.
    + eapply worldInv_insert; [done| |done]. apply connInv_withTx_None.
  - destruct (Rollback_conns c w) as [He|(s & Hc & He)].
    + by eapply worldInv_same_conns.
    + eapply worldInv_insert; [done| |done]. apply connInv_withTx_None.
  - eapply worldInv_same_conns; [done|]. apply CloseNow_conns.
  - by rewrite Unwrap_world.
Qed.

(** C8. [Unwrap] on a live connection: the database-handle sentinel
    yields the [db] field, the transaction-handle sentinel yields the [tx]
    field, and every other tag panics with "unsupported target type ..."
    instead of returning; nothing is changed in any case. *)
Theorem C8_unwrap_by_tag (c : Connection) (s : sqlConnection) (w : World)
    (target : any) :
  conns w !! c = Some s ->
  sqlDbPointer P <> sqlTxtPointer P ->
  (target = sqlDbPointer P -> Unwrap P c target w = (Val (AnyDB (db s)), w)) /\
  (target = sqlTxtPointer P -> Unwrap P c target w = (Val (AnyTx (tx s)), w)) /\
  (target <> sqlDbPointer P -> target <> sqlTxtPointer P ->
   Unwrap P c target w = (Panic ("unsupported target type " +:+ fmt_v P target), w)).
Proof.
  intros Hc Hne. unfold Unwrap. repeat split.
  - intros ->. rewrite decide_True by done.
    by rewrite (bind_val _ _ _ _ _ (load_val _ _ _ Hc)).
  - intros ->. rewrite decide_False by done. rewrite decide_True by done.
    by rewrite (bind_val _ _ _ _ _ (load_val _ _ _ Hc)).
  - intros H1 H2. by rewrite !decide_False by done.
Qed.

End ConnectionState.

Section Provider.

Context (D : Driver) (P : Package).

Lemma logs_nil w : logs [] w = w.
Proof. unfold logs. rewrite app_nil_r. apply world_eta. Qed.

Lemma logs_log es e w : logs es (log e w) = logs (e :: es) w.
Proof. unfold logs, log. simpl. by rewrite <- app_assoc. Qed.

Lemma log_logs es e w : log e (logs es w) = logs (es ++ [e]) w.
Proof. unfold logs, log. simpl. by rewrite <- app_assoc. Qed.

Lemma logs_logs es es' w : logs es' (logs es w) = logs (es ++ es') w.
Proof. unfold logs. simpl. by rewrite <- app_assoc. Qed.

Lemma initOk_cons h tr q stmts :
  initOk D h tr (q :: stmts) ->
  drv_Exec D tr h q = None /\ initOk D h (tr ++ [DbExec h q]) stmts.
Proof.
  intros H. split.
  - specialize (H 0%nat q eq_refl). simpl in H. by rewrite app_nil_r in H.
  - intros i q' Hi. specialize (H (S i) q' Hi). simpl in H.
    by rewrite <- app_assoc.
Qed.

Lemma execInitSQL_prefix cfg h pre rest w :
  initOk D h (trace w) pre ->
  execInitSQL D cfg (Some h) (pre ++ rest) w =
  execInitSQL D cfg (Some h) rest (logs (DbExec h <$> pre) w).
Proof.
  revert w. induction pre as [|q pre IH]; intros w Hok.
  - simpl. by rewrite logs_nil.
  - apply initOk_cons in Hok as [Hq Hok]. simpl.
    rewrite (bind_val _ _ _ _ _ (DB_Exec_some D h q w)), Hq.
    rewrite IH by done. by rewrite logs_log.
Qed.

Lemma execInitSQL_ok cfg h stmts w :
  initOk D h (trace w) stmts ->
  execInitSQL D cfg (Some h) stmts w = (Val None, logs (DbExec h <$> stmts) w).
Proof.
  intros Hok. rewrite <- (app_nil_r stmts) at 1.
  by rewrite execInitSQL_prefix.
Qed.

Lemma execInitSQL_fail cfg h pre q post e w :
  initOk D h (trace w) pre ->
  drv_Exec D (trace w ++ (DbExec h <$> pre)) h q = Some e ->
  execInitSQL D cfg (Some h) (pre ++ q :: post) w =
    (Val (Some (initSQLError cfg q e)), logs ((DbExec h <$> pre) ++ [DbExec h q]) w).
Proof.
  intros Hok Hq. rewrite execInitSQL_prefix by done. simpl.
  rewrite (bind_val _ _ _ _ _ (DB_Exec_some D h q _)). simpl. rewrite Hq.
  unfold ret. by rewrite log_logs.
Qed.

End Provider.

Section NewConnection.

Context (D : Driver) (P : Package).

Lemma execInitSQL_logs cfg h stmts w :
  exists r es, execInitSQL D cfg (Some h) stmts w = (Val r, logs es w).
Proof.
  revert w. induction stmts as [|q stmts IH]; intros w.
  - exists None, []. simpl. by rewrite logs_nil.
  - simpl. rewrite (bind_val _ _ _ _ _ (DB_Exec_some D h q w)).
    destruct (drv_Exec D (trace w) h q) as [e|].
    + eexists _, [_]. reflexivity.
    + destruct (IH (log (DbExec h q) w)) as (r & es & ->).
      exists r, (DbExec h q :: es). by rewrite logs_log.
Qed.

Lemma NewConnection_wrap (w : World) (h : DbHandle) (es : list Call) :
  (do connection <- new (mkSqlConnection
                           (CanHandleTransaction
                              (GetDatastoreDialect P (DriverName (config w))))
                           None (Some h) None false);
   do _ <- set_AbstractConnection connection
             (NewAbstractConnection P (config w) connection);
   ret (Some connection, @None Error)) (logs es w) =
  (Val (Some (length (conns w)), None),
   mkWorld (conns w ++ [freshConnection P w h]) (config w) (now w) (trace w ++ es)).
Proof.
  unfold bind, new, set_AbstractConnection, bind, load, ret. simpl.
  rewrite lookup_app_r by done. rewrite Nat.sub_diag. simpl.
  rewrite insert_app_r_alt by done. rewrite Nat.sub_diag. done.
Qed.

Lemma NewConnection_dsn_error w dsn err :
  DsnDescriptor P (config w) = (dsn, Some err) ->
  NewConnection D P w = (Val (None, Some err), w).
Proof. intros H. unfold NewConnection, bind, get_config. simpl. by rewrite H. Qed.

Lemma NewConnection_open_error w dsn err :
  DsnDescriptor P (config w) = (dsn, None) ->
  drv_Open D (trace w) (DriverName (config w)) dsn = inr err ->
  NewConnection D P w =
    (Val (None, Some ("failed to open connection to " +:+ DriverName (config w)
                        +:+ " on " +:+ Descriptor (config w) +:+ " due to " +:+ err)),
     log (SqlOpen (DriverName (config w)) dsn) w).
Proof.
  intros Hd Ho. unfold NewConnection, bind, get_config, sql_Open. simpl.
  by rewrite Hd, Ho.
Qed.

Lemma NewConnection_opened w dsn h :
  DsnDescriptor P (config w) = (dsn, None) ->
  drv_Open D (trace w) (DriverName (config w)) dsn = inl h ->
  NewConnection D P w =
    match execInitSQL D (config w) (Some h) (InitSQL (config w))
                      (log (SqlOpen (DriverName (config w)) dsn) w) with
    | (Val (Some err), w') => (Val (None, Some err), w')
    | (Val None, w') =>
        (Val (Some (length (conns w)), None),
         mkWorld (conns w ++ [freshConnection P w h]) (config w) (now w) (trace w'))
    | (Panic msg, w') => (Panic msg, w')
    end.
Proof.
  intros Hd Ho. unfold NewConnection.
  unfold bind at 1, get_config. rewrite Hd.
  unfold bind at 1, sql_Open. rewrite Ho.
  set (w1 := log _ w).
  destruct (InitSQL (config w)) as [|q stmts] eqn:Hi.
  - simpl. unfold bind at 1, ret at 1.
    rewrite <- (logs_nil w1) at 1. unfold w1 at 1. rewrite logs_log.
    by rewrite NewConnection_wrap.
  - change (0 <? Z.of_nat (length (q :: stmts))) with true. cbv iota.
    destruct (execInitSQL_logs (config w) h (q :: stmts) w1) as (r & es & He).
    rewrite (bind_val _ _ _ _ _ He), He. destruct r as [err|]; [done|].
    unfold w1. rewrite logs_log. by rewrite NewConnection_wrap.
Qed.

(** [NewConnection] never panics; it either returns the next free address
    or an error, and writes nothing but the new connection and the log. *)
Lemma NewConnection_shape w :
  exists r w',
    NewConnection D P w = (Val r, w') /\
    config w' = config w /\ now w' = now w /\
    (exists es, trace w' = trace w ++ es) /\
    ((exists s, r = (Some (length (conns w)), None) /\ conns w' = conns w ++ [s]) \/
     (exists err, r = (None, Some err) /\ conns w' = conns w)).
Proof.
  destruct (DsnDescriptor P (config w)) as [dsn [err|]] eqn:Hd.
  { rewrite (NewConnection_dsn_error _ _ _ Hd). eexists _, _.
    split; [done|]. repeat split; [by exists []; rewrite app_nil_r|].
    right. by eexists. }
  destruct (drv_Open D (trace w) (DriverName (config w)) dsn) as [h|err] eqn:Ho.
  2:{ rewrite (NewConnection_open_error _ _ _ Hd Ho). eexists _, _.
      split; [done|]. repeat split; [by eexists|]. right. by eexists. }
  rewrite (NewConnection_opened _ _ _ Hd Ho).
  destruct (execInitSQL_logs (config w) h (InitSQL (config w))
              (log (SqlOpen (DriverName (config w)) dsn) w)) as (r & es & ->).
  rewrite logs_log. destruct r as [err|]; eexists _, _; (split; [done|]).
  - repeat split; [by eexists|]. right. by eexists.
  - repeat split; [by eexists|]. left. by eexists.
Qed.

End NewConnection.

Section Get.

Context (D : Driver) (P : Package).

Lemma time_Sub_stale n t :
  (60 * time_Second <? time_Sub n t) = true <-> stale n t.
Proof.
  unfold stale, time_Sub, time_Second, maxDuration, minDuration.
  rewrite Z.ltb_lt.
  destruct (Z.ltb_spec 9223372036854775807 (n - t));
    [lia | destruct (Z.ltb_spec (n - t) (-9223372036854775808)); lia].
Qed.

Lemma time_Sub_fresh n t :
  (60 * time_Second <? time_Sub n t) = false <-> ~ stale n t.
Proof.
  rewrite <- time_Sub_stale. destruct (60 * time_Second <? time_Sub n t); naive_solver.
Qed.

Lemma Unwrap_db c s w :
  conns w !! c = Some s ->
  Unwrap P c (sqlDbPointer P) w = (Val (AnyDB (db s)), w).
Proof.
  intros Hc. unfold Unwrap. rewrite decide_True by done.
  by rewrite (bind_val _ _ _ _ _ (load_val _ _ _ Hc)).
Qed.

Lemma LastUsed_val c s a w :
  conns w !! c = Some s -> AbstractConnection s = Some a ->
  LastUsed c w = (Val (lastUsed a), w).
Proof.
  intros Hc Ha. unfold LastUsed.
  rewrite (bind_val _ _ _ _ _ (load_val _ _ _ Hc)), Ha. done.
Qed.

Lemma tuning_run (h : DbHandle) (w : World) :
  (do cfg <- get_config;
   do _ <- (if Has P cfg connMaxLifetimeMsKey then
              let connMaxLifetime :=
                GetDuration P cfg connMaxLifetimeMsKey
                            time_Millisecond defaultConnMaxLifetimeMs in
              if negb (connMaxLifetime =? 0)
              then DB_SetConnMaxLifetime (Some h) connMaxLifetime
              else ret tt
            else ret tt);
   do _ <- (if Has P cfg maxIdleConnsKey
            then DB_SetMaxIdleConns (Some h) (GetInt P cfg maxIdleConnsKey 1)
            else ret tt);
   do r' <- NewConnection D P;
   match r' with
   | (_, Some err') => ret (None, Some err')
   | (result', None) => ret (result', None)
   end) w =
  relay (NewConnection D P (logs (tuningCalls P (config w) h) w)).
Proof.
  unfold bind at 1, get_config. unfold tuningCalls.
  assert (Hrelay : forall w',
    (do r' <- NewConnection D P;
     match r' with
     | (_, Some err') => ret (None, Some err')
     | (result', None) => ret (result', None)
     end) w' = relay (NewConnection D P w')).
  { intros w'. unfold bind. destruct (NewConnection D P w') as [[[r [e|]]|m] w3]; done. }
  destruct (Has P (config w) connMaxLifetimeMsKey);
    [destruct (GetDuration P (config w) connMaxLifetimeMsKey time_Millisecond
                           defaultConnMaxLifetimeMs =? 0)|];
    destruct (Has P (config w) maxIdleConnsKey); cbn [negb app];
    repeat (first [ rewrite (bind_val _ _ _ _ _ (DB_SetConnMaxLifetime_some _ _ _))
                  | rewrite (bind_val _ _ _ _ _ (DB_SetMaxIdleConns_some _ _ _))
                  | rewrite (bind_val _ _ _ _ _ (eq_refl : ret tt _ = (Val tt, _))) ]);
    rewrite Hrelay; rewrite ?logs_nil; try done.
  unfold logs, log. simpl. by rewrite <- app_assoc.
Qed.

(** [Get] once the pool has handed out the live connection [c] whose
    handle casts to [h]. *)
Lemma Get_checked_out w w1 c s h a :
  AbstractConnectionProvider_Get P w = (Val (Some c, None), w1) ->
  conns w1 !! c = Some s ->
  asSQLDb P (AnyDB (db s)) = (Some h, None) ->
  AbstractConnection s = Some a ->
  Get D P w =
    match lastUsed a with
    | None => (Val (Some c, None), w1)
    | Some t =>
        if 60 * time_Second <? time_Sub (now w1) t then
          match drv_Ping D (trace w1) h with
          | None => (Val (Some c, None), log (DbPing h) w1)
          | Some _ =>
              relay (NewConnection D P
                       (logs (DbPing h :: tuningCalls P (config w1) h) w1))
          end
        else (Val (Some c, None), w1)
    end.
Proof.
  intros Hg Hc Hdb Ha. unfold Get.
  rewrite (bind_val _ _ _ _ _ Hg). cbn [deref].
  rewrite (bind_val _ _ _ _ _ (eq_refl : ret c w1 = (Val c, w1))).
  rewrite (bind_val _ _ _ _ _ (Unwrap_db _ _ _ Hc)), Hdb.
  rewrite (bind_val _ _ _ _ _ (LastUsed_val _ _ _ _ Hc Ha)).
  destruct (lastUsed a) as [t|]; [|done].
  unfold bind at 1. unfold bind at 1, time_Now.
  destruct (60 * time_Second <? time_Sub (now w1) t); [|done].
  rewrite DB_Ping_some.
  destruct (drv_Ping D (trace w1) h) as [e|]; [|done].
  rewrite tuning_run. by rewrite logs_log.
Qed.

End Get.

Section Messages.

Lemma prefixb_spec part s :
  prefixb part s = true <-> exists post, s = part +:+ post.
Proof.
  revert s. induction part as [|a part IH]; intros s; simpl.
  - split; [by exists s | done].
  - destruct s as [|b s].
    + split; [done | by intros [? ?]].
    + destruct (Ascii.eqb_spec a b) as [->|Hne].
      * rewrite IH. split; intros [post H]; exists post.
        -- by rewrite H.
        -- by injection H.
      * split; [done|]. intros [post H]. injection H. done.
Qed.

Lemma includesb_unfold msg part :
  includesb msg part =
    prefixb part msg ||
    match msg with
    | EmptyString => false
    | String _ msg' => includesb msg' part
    end.
Proof. by destruct msg. Qed.

Lemma includesb_spec msg part :
  includesb msg part = true <-> Includes msg part.
Proof.
  split.
  - induction msg as [|a msg IH]; rewrite includesb_unfold; intros H;
      apply orb_true_iff in H as [H|H].
    + apply prefixb_spec in H as [post ->]. by exists "", post.
    + done.
    + apply prefixb_spec in H as [post ->]. by exists "", post.
    + destruct (IH H) as (pre & post & ->). by exists (String a pre), post.
  - intros (pre & post & ->). induction pre as [|a pre IH].
    + rewrite includesb_unfold. apply orb_true_iff. left.
      apply prefixb_spec. by exists post.
    + rewrite includesb_unfold. apply orb_true_iff. by right.
Qed.

End Messages.

Section ProviderClaims.

Context (D : Driver) (P : Package).

Lemma append_assoc (a b c : string) : (a +:+ b) +:+ c = a +:+ b +:+ c.
Proof.
  induction a as [|x a IH]; [reflexivity | exact (f_equal (String x) IH)].
Qed.

Lemma append_nil_r (a : string) : a +:+ "" = a.
Proof.
  induction a as [|x a IH]; [reflexivity | exact (f_equal (String x) IH)].
Qed.

Lemma Includes_initSQLError cfg q e :
  Includes (initSQLError cfg q e) q /\
  Includes (initSQLError cfg q e) (Descriptor cfg) /\
  Includes (initSQLError cfg q e) e.
Proof.
  unfold initSQLError. repeat split.
  - by eexists "failed to execute init SQL ", _.
  - exists ("failed to execute init SQL " +:+ q +:+ " on "), (" due to " +:+ e).
    by rewrite !append_assoc.
  - exists ("failed to execute init SQL " +:+ q +:+ " on " +:+ Descriptor cfg
              +:+ " due to "), "".
    by rewrite append_nil_r, !append_assoc.
Qed.

(** C7 (amended). Once the handle is open, [NewConnection] runs the
    initialization statements in their order on it. If all succeed, all
    have been run and the new connection is returned. If one fails after
    its predecessors succeeded, that call is the last one made: no later
    statement runs, nothing is rolled back or closed, no connection is
    allocated, and the error returned is "failed to execute init SQL
    <statement> on <descriptor> due to <cause>": it carries the statement
    text, the endpoint descriptor and the cause. *)
Theorem C7_init_statements_in_order (w : World) (dsn : string) (h : DbHandle) :
  DsnDescriptor P (config w) = (dsn, None) ->
  drv_Open D (trace w) (DriverName (config w)) dsn = inl h ->
  let opened := trace w ++ [SqlOpen (DriverName (config w)) dsn] in
  (initOk D h opened (InitSQL (config w)) ->
   exists w',
     NewConnection D P w = (Val (Some (length (conns w)), None), w') /\
     trace w' = opened ++ (DbExec h <$> InitSQL (config w))) /\
  (forall (pre : list string) (q : string) (post : list string) (e : Error),
     InitSQL (config w) = pre ++ q :: post ->
     initOk D h opened pre ->
     drv_Exec D (opened ++ (DbExec h <$> pre)) h q = Some e ->
     exists w',
       NewConnection D P w = (Val (None, Some (initSQLError (config w) q e)), w') /\
       trace w' = opened ++ (DbExec h <$> pre) ++ [DbExec h q] /\
       conns w' = conns w /\
       Includes (initSQLError (config w) q e) q /\
       Includes (initSQLError (config w) q e) (Descriptor (config w)) /\
       Includes (initSQLError (config w) q e) e).
Proof.
  intros Hd Ho opened. rewrite (NewConnection_opened D P _ _ _ Hd Ho). split.
  - intros Hok. rewrite execInitSQL_ok by done. eexists. split; [done|]. done.
  - intros pre q post e Hi Hok Hq. rewrite Hi.
    rewrite (execInitSQL_fail D _ _ _ _ _ e) by done.
    eexists. split; [done|]. split; [done|]. split; [done|].
    apply Includes_initSQLError.
Qed.

(** C4. When the pool hands out a live connection last used more than 60
    seconds ago, [Get] pings its handle. If the ping fails, [Get] returns
    what [NewConnection] returns (run after the ping and the tuning
    calls): either the freshly allocated connection with a nil error, at
    an address that was free before and so differs from the one that
    failed, or the error of [NewConnection]. The ping's own error is
    never returned. *)
Theorem C4_stale_connection_replaced (w w1 : World) (c : Connection)
    (s : sqlConnection) (h : DbHandle) (a : AbstractConnectionT) (t : Time) :
  AbstractConnectionProvider_Get P w = (Val (Some c, None), w1) ->
  conns w1 !! c = Some s ->
  asSQLDb P (AnyDB (db s)) = (Some h, None) ->
  AbstractConnection s = Some a ->
  lastUsed a = Some t ->
  stale (now w1) t ->
  (exists rest, trace (snd (Get D P w)) = trace w1 ++ DbPing h :: rest) /\
  (forall e, drv_Ping D (trace w1) h = Some e ->
     exists r w3,
       NewConnection D P (logs (DbPing h :: tuningCalls P (config w1) h) w1)
         = (Val r, w3) /\
       Get D P w = (Val r, w3) /\
       ((exists c', r = (Some c', None) /\ c' <> c /\
                    conns w1 !! c' = None /\ is_Some (conns w3 !! c')) \/
        (exists err, r = (None, Some err)))).
Proof.
  intros Hg Hc Hdb Ha Hl Hs.
  rewrite (Get_checked_out D P _ _ _ _ _ _ Hg Hc Hdb Ha), Hl.
  apply time_Sub_stale in Hs. rewrite Hs.
  set (w2 := logs (DbPing h :: tuningCalls P (config w1) h) w1).
  destruct (NewConnection_shape D P w2)
    as (r & w3 & Hn & _ & _ & [es Ht] & Hr).
  split.
  - destruct (drv_Ping D (trace w1) h); [|by exists []].
    rewrite Hn. exists (tuningCalls P (config w1) h ++ es).
    replace (snd (relay (Val r, w3))) with w3 by by destruct r as [? [?|]].
    rewrite Ht. simpl. by rewrite <- app_assoc.
  - intros e He. rewrite He. exists r, w3. split; [done|].
    rewrite Hn. destruct Hr as [(s' & -> & Hcs)|(err & -> & Hcs)].
    + split; [done|]. left. exists (length (conns w1)).
      split; [done|]. apply lookup_lt_Some in Hc as Hlt.
      split; [simpl; lia|]. split; [by apply lookup_ge_None|].
      rewrite Hcs. simpl. rewrite lookup_app_r by done.
      rewrite Nat.sub_diag. by eexists.
    + split; [done|]. right. by eexists.
Qed.

(** C5 (amended). On the path where no probe is needed or the probe
    succeeds, [Get] returns the pooled connection as it is; the only call
    that may have reached its handle is the ping, so no tuning call is
    made whatever keys the config has. The tuning calls for the
    configured keys are made on the path where the probe fails, on the
    stale handle, before [NewConnection] runs. *)
Theorem C5_tuning_only_after_failed_probe (w w1 : World) (c : Connection)
    (s : sqlConnection) (h : DbHandle) (a : AbstractConnectionT) :
  AbstractConnectionProvider_Get P w = (Val (Some c, None), w1) ->
  conns w1 !! c = Some s ->
  asSQLDb P (AnyDB (db s)) = (Some h, None) ->
  AbstractConnection s = Some a ->
  (lastUsed a = None -> Get D P w = (Val (Some c, None), w1)) /\
  (forall t, lastUsed a = Some t -> ~ stale (now w1) t ->
     Get D P w = (Val (Some c, None), w1)) /\
  (forall t, lastUsed a = Some t -> stale (now w1) t ->
     drv_Ping D (trace w1) h = None ->
     Get D P w = (Val (Some c, None), log (DbPing h) w1)) /\
  (forall t e, lastUsed a = Some t -> stale (now w1) t ->
     drv_Ping D (trace w1) h = Some e ->
     Get D P w =
       relay (NewConnection D P
                (logs (DbPing h :: tuningCalls P (config w1) h) w1))).
Proof.
  intros Hg Hc Hdb Ha.
  rewrite (Get_checked_out D P _ _ _ _ _ _ Hg Hc Hdb Ha).
  split; [by intros ->|]. split; [|split].
  - intros t -> Hs. apply time_Sub_fresh in Hs. by rewrite Hs.
  - intros t -> Hs Hp. apply time_Sub_stale in Hs. by rewrite Hs, Hp.
  - intros t e -> Hs Hp. apply time_Sub_stale in Hs. by rewrite Hs, Hp.
Qed.

Lemma newSQLConnectionProvider_run (limit : Z) (w : World) :
  newSQLConnectionProvider limit w =
    if MaxPoolSize (config w) =? 0 then
      let w' := mkWorld (conns w)
                  (mkConfig (DriverName (config w)) (Descriptor (config w))
                            (InitSQL (config w)) 1 (Parameters (config w)))
                  (now w) (trace w) in
      if limit <? 1 then (Panic "makechan: size out of range", w')
      else (Val (mkSqlConnectionProvider
                   (mkAbstractConnectionProvider (mkChan 1 []))), w')
    else if (MaxPoolSize (config w) <? 0) || (limit <? MaxPoolSize (config w)) then
      (Panic "makechan: size out of range", w)
    else
      (Val (mkSqlConnectionProvider
              (mkAbstractConnectionProvider (mkChan (MaxPoolSize (config w)) []))), w).
Proof.
  unfold newSQLConnectionProvider, bind, get_config, set_MaxPoolSize, make_chan.
  destruct (MaxPoolSize (config w) =? 0); simpl.
  - by destruct (limit <? 1).
  - by destruct ((MaxPoolSize (config w) <? 0) || (limit <? MaxPoolSize (config w))).
Qed.

End ProviderClaims.

Section Frame.

Context (D : Driver) (P : Package).

Lemma keeps_ret {A} (a : A) : keepsConfig (ret a).
Proof. done. Qed.

Lemma keeps_panic {A} msg : keepsConfig (@panic A msg).
Proof. done. Qed.

Lemma keeps_bind {A B} (m : M A) (k : A -> M B) :
  keepsConfig m -> (forall a, keepsConfig (k a)) -> keepsConfig (bind m k).
Proof.
  intros Hm Hk w. unfold bind. specialize (Hm w).
  destruct (m w) as [[a|msg] w']; [|done].
  rewrite Hk. done.
Qed.

Lemma bind_config {A B} (m : M A) (k : A -> M B) w :
  (forall a, keepsConfig (k a)) ->
  config (snd (bind m k w)) = config (snd (m w)).
Proof.
  intros Hk. unfold bind. destruct (m w) as [[a|msg] w']; [|done].
  by rewrite Hk.
Qed.

Lemma keeps_deref {A} (p : option A) : keepsConfig (deref p).
Proof. by destruct p. Qed.

Lemma keeps_load c : keepsConfig (load c).
Proof. intros w. unfold load. by destruct (conns w !! c). Qed.

Lemma keeps_logged {A} (f : World -> A) e :
  keepsConfig (fun w => (Val (f w), log e w)).
Proof. done. Qed.

Lemma keeps_set_tx c t : keepsConfig (set_tx c t).
Proof. apply keeps_bind; [apply keeps_load | by intros s w]. Qed.

Lemma keeps_set_AbstractConnection c a : keepsConfig (set_AbstractConnection c a).
Proof. apply keeps_bind; [apply keeps_load | by intros s w]. Qed.

Lemma keeps_new s : keepsConfig (new s).
Proof. done. Qed.

Lemma keeps_get_config : keepsConfig get_config.
Proof. done. Qed.

Lemma keeps_time_Now : keepsConfig time_Now.
Proof. done. Qed.

Lemma keeps_sql_Open n dsn : keepsConfig (sql_Open D n dsn).
Proof. done. Qed.

Ltac keeps :=
  repeat first
    [ apply keeps_ret | apply keeps_panic | apply keeps_deref | apply keeps_load
    | apply keeps_set_tx | apply keeps_set_AbstractConnection | apply keeps_new
    | apply keeps_get_config | apply keeps_time_Now | apply keeps_sql_Open
    | apply keeps_logged
    | apply keeps_bind; [|intros ?]
    | match goal with
      | |- keepsConfig (if ?b then _ else _) => destruct b
      | |- keepsConfig (match ?x with _ => _ end) => destruct x
      | |- keepsConfig (let _ := _ in _) => cbv zeta
      end ].

Lemma keeps_DB_Exec d q : keepsConfig (DB_Exec D d q).
Proof. unfold DB_Exec. keeps. Qed.

Lemma keeps_DB_Begin d : keepsConfig (DB_Begin D d).
Proof. unfold DB_Begin. keeps. Qed.

Lemma keeps_DB_Ping d : keepsConfig (DB_Ping D d).
Proof. unfold DB_Ping. keeps. Qed.

Lemma keeps_DB_Close d : keepsConfig (DB_Close D d).
Proof. unfold DB_Close. keeps. Qed.

Lemma keeps_DB_SetConnMaxLifetime d n : keepsConfig (DB_SetConnMaxLifetime d n).
Proof. unfold DB_SetConnMaxLifetime. keeps. Qed.

Lemma keeps_DB_SetMaxIdleConns d n : keepsConfig (DB_SetMaxIdleConns d n).
Proof. unfold DB_SetMaxIdleConns. keeps. Qed.

Lemma keeps_Tx_Commit t : keepsConfig (Tx_Commit D t).
Proof. unfold Tx_Commit. keeps. Qed.

Lemma keeps_Tx_Rollback t : keepsConfig (Tx_Rollback D t).
Proof. unfold Tx_Rollback. keeps. Qed.

Ltac keeps_all :=
  repeat first
    [ apply keeps_DB_Exec | apply keeps_DB_Begin | apply keeps_DB_Ping
    | apply keeps_DB_Close | apply keeps_DB_SetConnMaxLifetime
    | apply keeps_DB_SetMaxIdleConns | apply keeps_Tx_Commit
    | apply keeps_Tx_Rollback | progress keeps ].

Lemma keeps_Begin c : keepsConfig (Begin D P c).
Proof. unfold Begin. keeps_all. Qed.

Lemma keeps_Commit c : keepsConfig (Commit D c).
Proof. unfold Commit. keeps_all. Qed.

Lemma keeps_Rollback c : keepsConfig (Rollback D c).
Proof. unfold Rollback. keeps_all. Qed.

Lemma keeps_CloseNow c : keepsConfig (CloseNow D P c).
Proof. unfold CloseNow. keeps_all. Qed.

Lemma keeps_Unwrap c target : keepsConfig (Unwrap P c target).
Proof. unfold Unwrap. keeps_all. Qed.

Lemma keeps_LastUsed c : keepsConfig (LastUsed c).
Proof. unfold LastUsed. keeps_all. Qed.

Lemma keeps_execInitSQL cfg d stmts : keepsConfig (execInitSQL D cfg d stmts).
Proof. induction stmts as [|q stmts IH]; simpl; keeps_all; done. Qed.

Lemma keeps_NewConnection : keepsConfig (NewConnection D P).
Proof. unfold NewConnection. keeps_all; apply keeps_execInitSQL. Qed.

Lemma after_config (op : ConnOp) (c : Connection) (w : World) :
  config (after D P op c w) = config w.
Proof.
  destruct op; simpl;
    [apply keeps_Begin | apply keeps_Commit | apply keeps_Rollback
    | apply keeps_CloseNow | apply keeps_Unwrap].
Qed.

Lemma Get_config (w : World) :
  config (snd (Get D P w)) = config (snd (AbstractConnectionProvider_Get P w)).
Proof.
  unfold Get. apply bind_config. intros r.
  keeps_all; first [apply keeps_Unwrap | apply keeps_execInitSQL].
Qed.

End Frame.

Section ConstructorClaims.

Context (D : Driver) (P : Package).

(** C9 (amended). Constructing the provider rewrites the supplied config
    in one place: [MaxPoolSize] becomes 1 when it was zero; every other
    field, and a [MaxPoolSize] that is not zero, stays as supplied. After
    that no operation of a connection writes the config, nor does
    [NewConnection], nor does [Get] beyond what the pool's own [Get]
    did. *)
Theorem C9_config_written_only_by_default (limit : Z) (w : World) :
  config (snd (newSQLConnectionProvider limit w)) =
    mkConfig (DriverName (config w)) (Descriptor (config w)) (InitSQL (config w))
             (if MaxPoolSize (config w) =? 0 then 1 else MaxPoolSize (config w))
             (Parameters (config w)) /\
  (forall (op : ConnOp) (c : Connection), config (after D P op c w) = config w) /\
  config (snd (NewConnection D P w)) = config w /\
  config (snd (Get D P w)) = config (snd (AbstractConnectionProvider_Get P w)).
Proof.
  split; [|split; [|split]].
  - rewrite newSQLConnectionProvider_run.
    destruct (MaxPoolSize (config w) =? 0) eqn:H0;
      [by destruct (limit <? 1)|].
    destruct ((MaxPoolSize (config w) <? 0) || (limit <? MaxPoolSize (config w)));
      by destruct w as [? []].
  - intros op c. apply after_config.
  - apply keeps_NewConnection.
  - apply Get_config.
Qed.

(** C10. For a pool size that [make] accepts (not negative and, once
    defaulted, not above the runtime's largest channel size), the
    constructor returns a provider whose pool is an empty channel with
    the capacity found in the config after construction: 1 when
    [MaxPoolSize] was zero (unset), the configured [MaxPoolSize]
    otherwise. *)
Theorem C10_pool_capacity (limit : Z) (w : World) :
  0 <= MaxPoolSize (config w) ->
  (if MaxPoolSize (config w) =? 0 then 1 else MaxPoolSize (config w)) <= limit ->
  exists (p : sqlConnectionProvider) (w' : World),
    newSQLConnectionProvider limit w = (Val p, w') /\
    chan_cap (connectionPool (AbstractConnectionProvider p)) = MaxPoolSize (config w') /\
    chan_buf (connectionPool (AbstractConnectionProvider p)) = [] /\
    MaxPoolSize (config w') =
      (if MaxPoolSize (config w) =? 0 then 1 else MaxPoolSize (config w)) /\
    (MaxPoolSize (config w) = 0 ->
     chan_cap (connectionPool (AbstractConnectionProvider p)) = 1).
Proof.
  intros Hge Hle. rewrite newSQLConnectionProvider_run.
  destruct (Z.eqb_spec (MaxPoolSize (config w)) 0) as [H0|H0].
  - destruct (Z.ltb_spec limit 1); [lia|]. cbv zeta.
    eexists _, _. split; [done|]. by repeat split.
  - destruct (Z.ltb_spec (MaxPoolSize (config w)) 0); [lia|].
    destruct (Z.ltb_spec limit (MaxPoolSize (config w))); [lia|]. simpl.
    eexists _, _. split; [done|]. by repeat split.
Qed.

End ConstructorClaims.

(** ** The statements at the sample installation *)

Lemma C1_witness :
  conns worldCsv !! 0%nat = Some (sampleConnection false None None) /\
  canHandleTransaction (sampleConnection false None None) = false /\
  Begin (sampleDriver false "") samplePackage 0%nat worldCsv = (Val None, worldCsv) /\
  Commit (sampleDriver false "") 0%nat worldCsv = (Val None, worldCsv) /\
  Rollback (sampleDriver false "") 0%nat worldCsv = (Val None, worldCsv) /\
  forall ops : list TxOp,
    txOps (sampleDriver false "") samplePackage ops 0%nat worldCsv =
      (Val (replicate (length ops) None), worldCsv).
Proof.
  split; [reflexivity|]. split; [reflexivity|].
  apply (C1_nontransactional_noop (sampleDriver false "") samplePackage 0%nat
           (sampleConnection false None None) worldCsv); reflexivity.
Defined.

Lemma C2_witness :
  conns worldIdle !! 0%nat = Some (sampleConnection true None None) /\
  Commit (sampleDriver false "") 0%nat worldIdle =
    (Val (Some "no active transaction"), worldIdle) /\
  Rollback (sampleDriver false "") 0%nat worldIdle =
    (Val (Some "no active transaction"), worldIdle) /\
  tx <$> conns (snd (Commit (sampleDriver false "") 0%nat worldIdle)) !! 0%nat
    = Some None /\
  tx <$> conns (snd (Rollback (sampleDriver false "") 0%nat worldIdle)) !! 0%nat
    = Some None.
Proof.
  split; [reflexivity|].
  apply (C2_no_active_transaction (sampleDriver false "") 0%nat
           (sampleConnection true None None) worldIdle); reflexivity.
Defined.

Lemma C3_witness :
  conns worldActive !! 0%nat = Some (sampleConnection true (Some 3%nat) None) /\
  exists w',
    Commit (sampleDriver true "") 0%nat worldActive = (Val (Some "bad connection"), w') /\
    conns w' !! 0%nat = Some (sampleConnection true None None) /\
    trace w' = [TxCommit 3%nat] /\
    Commit (sampleDriver true "") 0%nat w' = (Val (Some "no active transaction"), w') /\
    Rollback (sampleDriver true "") 0%nat w' = (Val (Some "no active transaction"), w').
Proof.
  split; [reflexivity|].
  exact (proj1 (C3_commit_clears_handle (sampleDriver true "") 0%nat
                  (sampleConnection true (Some 3%nat) None) 3%nat worldActive
                  eq_refl eq_refl eq_refl)).
Defined.

Lemma C6_witness :
  worldInv worldActive /\
  worldInv (after (sampleDriver false "") samplePackage DoBegin 0%nat worldActive).
Proof.
  assert (H : worldInv worldActive).
  { intros [|c] s Hs; [|discriminate]. injection Hs as <-.
    split; [reflexivity | simpl; lia]. }
  split; [exact H|].
  exact (C6_operations_preserve_invariant (sampleDriver false "") samplePackage
           DoBegin 0%nat worldActive H).
Defined.

Lemma C8_witness :
  sqlDbPointer samplePackage <> sqlTxtPointer samplePackage /\
  Unwrap samplePackage 0%nat (AnyDB None) worldActive
    = (Val (AnyDB (Some 7%nat)), worldActive) /\
  Unwrap samplePackage 0%nat (AnyTx None) worldActive
    = (Val (AnyTx (Some 3%nat)), worldActive) /\
  Unwrap samplePackage 0%nat (AnyOther "*os.File") worldActive
    = (Panic "unsupported target type *os.File", worldActive).
Proof.
  assert (Hne : sqlDbPointer samplePackage <> sqlTxtPointer samplePackage)
    by discriminate.
  split; [exact Hne|].
  split; [|split].
  - exact (proj1 (C8_unwrap_by_tag samplePackage 0%nat _ worldActive
                    (AnyDB None) eq_refl Hne) eq_refl).
  - exact (proj1 (proj2 (C8_unwrap_by_tag samplePackage 0%nat _ worldActive
                           (AnyTx None) eq_refl Hne)) eq_refl).
  - apply (proj2 (proj2 (C8_unwrap_by_tag samplePackage 0%nat _ worldActive
                           (AnyOther "*os.File") eq_refl Hne))); discriminate.
Defined.

Lemma C4_witness :
  stale (now worldOld) 0 /\
  (exists rest,
      trace (snd (Get (sampleDriver true "") samplePackage worldOld))
        = trace worldOld ++ DbPing 7%nat :: rest) /\
  (forall e, drv_Ping (sampleDriver true "") (trace worldOld) 7%nat = Some e ->
     exists r w3,
       NewConnection (sampleDriver true "") samplePackage
         (logs (DbPing 7%nat :: tuningCalls samplePackage (config worldOld) 7%nat)
               worldOld) = (Val r, w3) /\
       Get (sampleDriver true "") samplePackage worldOld = (Val r, w3) /\
       ((exists c', r = (Some c', None) /\ c' <> 0%nat /\
                    conns worldOld !! c' = None /\ is_Some (conns w3 !! c')) \/
        (exists err, r = (None, Some err)))).
Proof.
  assert (Hs : stale (now worldOld) 0) by reflexivity.
  split; [exact Hs|].
  exact (C4_stale_connection_replaced (sampleDriver true "") samplePackage
           worldOld worldOld 0%nat (sampleConnection true None (Some 0)) 7%nat
           (mkAbstractConnection (Some 0)) 0
           eq_refl eq_refl eq_refl eq_refl eq_refl Hs).
Defined.

Lemma C5_witness :
  (lastUsed (mkAbstractConnection (Some 0)) = None ->
   Get (sampleDriver false "") samplePackage worldOld = (Val (Some 0%nat, None), worldOld)) /\
  (forall t, lastUsed (mkAbstractConnection (Some 0)) = Some t ->
     ~ stale (now worldOld) t ->
     Get (sampleDriver false "") samplePackage worldOld = (Val (Some 0%nat, None), worldOld)) /\
  (forall t, lastUsed (mkAbstractConnection (Some 0)) = Some t ->
     stale (now worldOld) t ->
     drv_Ping (sampleDriver false "") (trace worldOld) 7%nat = None ->
     Get (sampleDriver false "") samplePackage worldOld
       = (Val (Some 0%nat, None), log (DbPing 7%nat) worldOld)) /\
  (forall t e, lastUsed (mkAbstractConnection (Some 0)) = Some t ->
     stale (now worldOld) t ->
     drv_Ping (sampleDriver false "") (trace worldOld) 7%nat = Some e ->
     Get (sampleDriver false "") samplePackage worldOld =
       relay (NewConnection (sampleDriver false "") samplePackage
                (logs (DbPing 7%nat
                         :: tuningCalls samplePackage (config worldOld) 7%nat)
                      worldOld))).
Proof.
  exact (C5_tuning_only_after_failed_probe (sampleDriver false "") samplePackage
           worldOld worldOld 0%nat (sampleConnection true None (Some 0)) 7%nat
           (mkAbstractConnection (Some 0)) eq_refl eq_refl eq_refl eq_refl).
Defined.

Lemma sample_initOk (D : Driver) (h : DbHandle) (tr : list Call) :
  drv_Exec D tr h "SET search_path = app" = None ->
  initOk D h tr ["SET search_path = app"].
Proof.
  intros H [|i] q Hq; [|discriminate].
  injection Hq as <-. simpl. by rewrite app_nil_r.
Qed.

Lemma C7_witness :
  exists w',
    NewConnection (sampleDriver false "SET x = 1") samplePackage worldIdle =
      (Val (None,
            Some "failed to execute init SQL SET x = 1 on localhost/orders due to syntax error"),
       w') /\
    trace w' = [SqlOpen "pg" "localhost/orders";
                DbExec 0%nat "SET search_path = app";
                DbExec 0%nat "SET x = 1"] /\
    conns w' = conns worldIdle /\
    Includes (initSQLError (config worldIdle) "SET x = 1" "syntax error") "SET x = 1" /\
    Includes (initSQLError (config worldIdle) "SET x = 1" "syntax error")
             "localhost/orders" /\
    Includes (initSQLError (config worldIdle) "SET x = 1" "syntax error") "syntax error".
Proof.
  apply (proj2 (C7_init_statements_in_order (sampleDriver false "SET x = 1")
                  samplePackage worldIdle "localhost/orders" 0%nat eq_refl eq_refl)
               ["SET search_path = app"] "SET x = 1" [] "syntax error").
  - reflexivity.
  - apply sample_initOk. reflexivity.
  - reflexivity.
Defined.

Lemma C10_witness :
  0 <= MaxPoolSize (config worldIdle) /\
  (if MaxPoolSize (config worldIdle) =? 0 then 1
   else MaxPoolSize (config worldIdle)) <= sampleChanLimit /\
  exists (p : sqlConnectionProvider) (w' : World),
    newSQLConnectionProvider sampleChanLimit worldIdle = (Val p, w') /\
    chan_cap (connectionPool (AbstractConnectionProvider p)) = MaxPoolSize (config w') /\
    chan_buf (connectionPool (AbstractConnectionProvider p)) = [] /\
    MaxPoolSize (config w') =
      (if MaxPoolSize (config worldIdle) =? 0 then 1
       else MaxPoolSize (config worldIdle)) /\
    (MaxPoolSize (config worldIdle) = 0 ->
     chan_cap (connectionPool (AbstractConnectionProvider p)) = 1).
Proof.
  assert (H : 0 <= MaxPoolSize (config worldIdle)) by (simpl; lia).
  assert (H' : (if MaxPoolSize (config worldIdle) =? 0 then 1
                else MaxPoolSize (config worldIdle)) <= sampleChanLimit)
    by (vm_compute; discriminate).
  split; [exact H|]. split; [exact H'|].
  exact (C10_pool_capacity sampleChanLimit worldIdle H H').
Defined.

(** C5, as stated, fails. With both tuning keys in the config, [Get] on a
    pooled connection that needs no probe, and on one whose probe
    succeeds, returns the connection without any tuning call reaching
    the handle. *)
Lemma C5_counterexample :
  Has samplePackage (config worldIdle) connMaxLifetimeMsKey = true /\
  Has samplePackage (config worldIdle) maxIdleConnsKey = true /\
  tuningCalls samplePackage (config worldIdle) 7%nat =
    [DbSetConnMaxLifetime 7%nat 5000000000; DbSetMaxIdleConns 7%nat 2] /\
  Get (sampleDriver false "") samplePackage worldIdle
    = (Val (Some 0%nat, None), worldIdle) /\
  trace (snd (Get (sampleDriver false "") samplePackage worldIdle)) = [] /\
  Get (sampleDriver false "") samplePackage worldOld
    = (Val (Some 0%nat, None), log (DbPing 7%nat) worldOld) /\
  existsb isTuning (trace (snd (Get (sampleDriver false "") samplePackage worldOld)))
    = false.
Proof. repeat split; vm_compute; reflexivity. Qed.

(** C7, as stated, fails. The error for a failed initialization statement
    does not carry the driver name. *)
Lemma C7_counterexample :
  DriverName (config worldIdle) = "pg" /\
  fst (NewConnection (sampleDriver false "SET x = 1") samplePackage worldIdle) =
    Val (None,
         Some "failed to execute init SQL SET x = 1 on localhost/orders due to syntax error") /\
  ~ Includes "failed to execute init SQL SET x = 1 on localhost/orders due to syntax error"
             (DriverName (config worldIdle)).
Proof.
  split; [reflexivity|]. split; [vm_compute; reflexivity|].
  intros H. apply includesb_spec in H. vm_compute in H. discriminate.
Qed.

(** C9, as stated, fails. Constructing a provider from a config with
    [MaxPoolSize] unset writes 1 into that config. *)
Lemma C9_counterexample :
  MaxPoolSize (config worldIdle) = 0 /\
  MaxPoolSize (config (snd (newSQLConnectionProvider sampleChanLimit worldIdle))) = 1 /\
  config (snd (newSQLConnectionProvider sampleChanLimit worldIdle)) <> config worldIdle.
Proof.
  split; [reflexivity|]. split; [reflexivity|].
  intros H. apply (f_equal MaxPoolSize) in H. vm_compute in H. discriminate.
Qed.

(** * Further properties of the connection *)

Section ConnectionExtras.

Context (D : Driver) (P : Package).

Lemma withTx_same s : withTx s (tx s) = s.
Proof. by destruct s. Qed.

Lemma withTx_withTx s t t' : withTx (withTx s t) t' = withTx s t'.
Proof. done. Qed.

Lemma Begin_started c s h t w :
  conns w !! c = Some s -> canHandleTransaction s = true ->
  asSQLDb P (AnyDB (db s)) = (Some h, None) ->
  drv_Begin D (trace w) h = inl t ->
  Begin D P c w =
    (Val None,
     mkWorld (<[c := withTx s (Some t)]> (conns w)) (config w) (now w)
             (trace w ++ [DbBegin h])).
Proof.
  intros Hc Ht Hdb Hb. unfold Begin.
  rewrite (bind_val _ _ _ _ _ (load_val _ _ _ Hc)), Ht, Hdb. simpl.
  rewrite (bind_val _ _ _ _ _ (DB_Begin_some D h w)), Hb.
  erewrite bind_val; [|by apply set_tx_val]. done.
Qed.

Lemma Unwrap_tx c s w :
  conns w !! c = Some s -> sqlDbPointer P <> sqlTxtPointer P ->
  Unwrap P c (sqlTxtPointer P) w = (Val (AnyTx (tx s)), w).
Proof.
  intros Hc Hne. unfold Unwrap.
  rewrite decide_False by done. rewrite decide_True by done.
  by rewrite (bind_val _ _ _ _ _ (load_val _ _ _ Hc)).
Qed.

(** X1. [CloseNow] on a connection whose handle casts to [h] makes two
    calls and no other: it sets the maximum connection lifetime of [h] to
    one second, then closes [h], and returns what the close returns. The
    heap is not written: a transaction handle stored on the connection is
    still stored afterwards, neither committed nor rolled back. *)
Theorem X1_CloseNow_retires_then_closes (c : Connection) (s : sqlConnection)
    (h : DbHandle) (w : World) :
  conns w !! c = Some s ->
  asSQLDb P (AnyDB (db s)) = (Some h, None) ->
  CloseNow D P c w =
    (Val (drv_Close D (trace w ++ [DbSetConnMaxLifetime h 1000000000]) h),
     logs [DbSetConnMaxLifetime h 1000000000; DbClose h] w) /\
  conns (snd (CloseNow D P c w)) !! c = Some s.
Proof.
  intros Hc Hdb.
  assert (H : CloseNow D P c w =
    (Val (drv_Close D (trace w ++ [DbSetConnMaxLifetime h 1000000000]) h),
     logs [DbSetConnMaxLifetime h 1000000000; DbClose h] w)).
  { unfold CloseNow.
    rewrite (bind_val _ _ _ _ _ (load_val _ _ _ Hc)), Hdb.
    rewrite (bind_val _ _ _ _ _ (DB_SetConnMaxLifetime_some _ _ _)).
    unfold DB_Close, bind, deref, ret, logs, log. simpl.
    by rewrite <- app_assoc. }
  by rewrite H.
Qed.

(** X2. When the cast of the handle fails, [CloseNow] and, on a
    transactional connection, [Begin] return the error of the cast; no
    call reaches the driver and nothing is stored. *)
Theorem X2_cast_error_stops (c : Connection) (s : sqlConnection)
    (d : option DbHandle) (e : Error) (w : World) :
  conns w !! c = Some s ->
  asSQLDb P (AnyDB (db s)) = (d, Some e) ->
  CloseNow D P c w = (Val (Some e), w) /\
  (canHandleTransaction s = true -> Begin D P c w = (Val (Some e), w)).
Proof.
  intros Hc Hdb. split.
  - unfold CloseNow. by rewrite (bind_val _ _ _ _ _ (load_val _ _ _ Hc)), Hdb.
  - intros Ht. unfold Begin.
    by rewrite (bind_val _ _ _ _ _ (load_val _ _ _ Hc)), Ht, Hdb.
Qed.

(** X3. A transaction from start to end. When the driver starts the
    transaction [t], [Begin] returns nil and stores [t]; [Unwrap] with the
    transaction sentinel then yields [t]; [Commit] (or [Rollback]) is
    issued on [t] itself, returns the driver's answer, and afterwards
    [Unwrap] yields a nil transaction handle. The driver saw [Begin] and
    the one commit (or rollback), nothing else. *)
Theorem X3_transaction_round_trip (c : Connection) (s : sqlConnection)
    (h : DbHandle) (t : TxHandle) (w : World) :
  conns w !! c = Some s ->
  canHandleTransaction s = true ->
  asSQLDb P (AnyDB (db s)) = (Some h, None) ->
  drv_Begin D (trace w) h = inl t ->
  sqlDbPointer P <> sqlTxtPointer P ->
  exists w1,
    Begin D P c w = (Val None, w1) /\
    Unwrap P c (sqlTxtPointer P) w1 = (Val (AnyTx (Some t)), w1) /\
    (exists w2,
        Commit D c w1 = (Val (drv_Commit D (trace w ++ [DbBegin h]) t), w2) /\
        trace w2 = trace w ++ [DbBegin h; TxCommit t] /\
        Unwrap P c (sqlTxtPointer P) w2 = (Val (AnyTx None), w2)) /\
    (exists w2,
        Rollback D c w1 = (Val (drv_Rollback D (trace w ++ [DbBegin h]) t), w2) /\
        trace w2 = trace w ++ [DbBegin h; TxRollback t] /\
        Unwrap P c (sqlTxtPointer P) w2 = (Val (AnyTx None), w2)).
Proof.
  intros Hc Ht Hdb Hb Hne.
  eexists. split; [by apply Begin_started|].
  set (w1 := mkWorld _ _ _ _).
  assert (Hc1 : conns w1 !! c = Some (withTx s (Some t)))
    by by apply lookup_withTx.
  split; [by rewrite (Unwrap_tx c _ w1 Hc1 Hne)|].
  split.
  - set (w2 := mkWorld (<[c := withTx (withTx s (Some t)) None]> (conns w1))
                       (config w1) (now w1) (trace w1 ++ [TxCommit t])).
    assert (Hc2 : conns w2 !! c = Some (withTx s None))
      by by apply (lookup_withTx (conns w1) c (withTx s (Some t)) None).
    exists w2. split; [by apply (Commit_active D c _ t w1 Hc1)|].
    split; [simpl; by rewrite <- app_assoc|].
    by rewrite (Unwrap_tx c _ w2 Hc2 Hne).
  - set (w2 := mkWorld (<[c := withTx (withTx s (Some t)) None]> (conns w1))
                       (config w1) (now w1) (trace w1 ++ [TxRollback t])).
    assert (Hc2 : conns w2 !! c = Some (withTx s None))
      by by apply (lookup_withTx (conns w1) c (withTx s (Some t)) None).
    exists w2. split; [by apply (Rollback_active D c _ t w1 Hc1)|].
    split; [simpl; by rewrite <- app_assoc|].
    by rewrite (Unwrap_tx c _ w2 Hc2 Hne).
Qed.

(** X4. When the driver refuses to start a transaction, [Begin] returns
    the driver's error and writes nothing: the connection stores the
    handle it stored before (none, or an earlier transaction). The only
    trace left is the [Begin] call in the log. *)
Theorem X4_Begin_refused_keeps_state (c : Connection) (s : sqlConnection)
    (h : DbHandle) (e : Error) (w : World) :
  conns w !! c = Some s ->
  canHandleTransaction s = true ->
  asSQLDb P (AnyDB (db s)) = (Some h, None) ->
  drv_Begin D (trace w) h = inr e ->
  Begin D P c w = (Val (Some e), log (DbBegin h) w) /\
  conns (snd (Begin D P c w)) !! c = Some s.
Proof.
  intros Hc Ht Hdb Hb.
  assert (H : Begin D P c w = (Val (Some e), log (DbBegin h) w)).
  { unfold Begin.
    rewrite (bind_val _ _ _ _ _ (load_val _ _ _ Hc)), Ht, Hdb. simpl.
    by rewrite (bind_val _ _ _ _ _ (DB_Begin_some D h w)), Hb. }
  by rewrite H.
Qed.

Lemma txOps_cons op ops c w :
  txOps D P (op :: ops) c w =
    match txOp D P op c w with
    | (Val e, w') =>
        match txOps D P ops c w' with
        | (Val es, w'') => (Val (e :: es), w'')
        | (Panic msg, w'') => (Panic msg, w'')
        end
    | (Panic msg, w') => (Panic msg, w')
    end.
Proof.
  simpl. unfold bind. destruct (txOp D P op c w) as [[e|msg] w']; [|done].
  by destruct (txOps D P ops c w') as [[es|msg] w''].
Qed.

(** X5. [Begin] on a connection that already holds a transaction replaces
    the stored handle. Of two transactions begun in a row, the commit goes
    to the second; the first is never committed nor rolled back by the
    connection, and a further [Commit] finds no active transaction. *)
Theorem X5_second_Begin_drops_first (c : Connection) (s : sqlConnection)
    (h : DbHandle) (t0 t1 : TxHandle) (w : World) :
  conns w !! c = Some s ->
  canHandleTransaction s = true ->
  asSQLDb P (AnyDB (db s)) = (Some h, None) ->
  drv_Begin D (trace w) h = inl t0 ->
  drv_Begin D (trace w ++ [DbBegin h]) h = inl t1 ->
  exists w3,
    txOps D P [OpBegin; OpBegin; OpCommit; OpCommit] c w =
      (Val [None; None; drv_Commit D (trace w ++ [DbBegin h; DbBegin h]) t1;
            Some "no active transaction"], w3) /\
    trace w3 = trace w ++ [DbBegin h; DbBegin h; TxCommit t1] /\
    conns w3 !! c = Some (withTx s None).
Proof.
  intros Hc Ht Hdb Hb0 Hb1.
  assert (exists w1, Begin D P c w = (Val None, w1) /\
            conns w1 !! c = Some (withTx s (Some t0)) /\
            trace w1 = trace w ++ [DbBegin h]) as (w1 & E1 & Hc1 & Ht1).
  { eexists. split; [by apply Begin_started|].
    split; [by apply lookup_withTx | done]. }
  rewrite <- Ht1 in Hb1.
  assert (exists w2, Begin D P c w1 = (Val None, w2) /\
            conns w2 !! c = Some (withTx s (Some t1)) /\
            trace w2 = trace w1 ++ [DbBegin h]) as (w2 & E2 & Hc2 & Ht2).
  { eexists. split; [by apply (Begin_started c _ h t1 w1 Hc1)|].
    split; [|done].
    by apply (lookup_withTx (conns w1) c (withTx s (Some t0)) (Some t1)). }
  assert (exists w3, Commit D c w2 = (Val (drv_Commit D (trace w2) t1), w3) /\
            conns w3 !! c = Some (withTx s None) /\
            trace w3 = trace w2 ++ [TxCommit t1]) as (w3 & E3 & Hc3 & Ht3).
  { eexists. split; [by apply (Commit_active D c _ t1 w2 Hc2)|].
    split; [|done].
    by apply (lookup_withTx (conns w2) c (withTx s (Some t1)) None). }
  exists w3. split; [|split; [|done]].
  - rewrite txOps_cons. cbn [txOp]. rewrite E1. cbv beta iota.
    rewrite txOps_cons. cbn [txOp]. rewrite E2. cbv beta iota.
    rewrite txOps_cons. cbn [txOp]. rewrite E3. cbv beta iota.
    rewrite txOps_cons. cbn [txOp].
    rewrite (Commit_no_tx D c _ w3 Hc3 Ht eq_refl). cbn [txOps]. unfold ret.
    rewrite Ht2, Ht1. by rewrite <- app_assoc.
  - rewrite Ht3, Ht2, Ht1. by rewrite <- !app_assoc.
Qed.

(** X6. An operation on the connection [c] writes at most the
    transaction handle of [c]: the heap keeps its size, every other
    connection is as before, and of [c] itself the capability flag, the
    database handle and the embedded connection are unchanged. *)
Theorem X6_operations_write_only_tx (op : ConnOp) (c : Connection) (w : World) :
  length (conns (after D P op c w)) = length (conns w) /\
  (forall c', c' <> c -> conns (after D P op c w) !! c' = conns w !! c') /\
  (forall s, conns w !! c = Some s ->
     exists t, conns (after D P op c w) !! c = Some (withTx s t)).
Proof.
  assert (Hsame : forall w', conns w' = conns w ->
    length (conns w') = length (conns w) /\
    (forall c', c' <> c -> conns w' !! c' = conns w !! c') /\
    (forall s, conns w !! c = Some s ->
       exists t, conns w' !! c = Some (withTx s t))).
  { intros w' ->. split; [done|]. split; [done|].
    intros s Hs. exists (tx s). by rewrite withTx_same. }
  assert (Hins : forall w' s0 t0, conns w !! c = Some s0 ->
    conns w' = <[c := withTx s0 t0]> (conns w) ->
    length (conns w') = length (conns w) /\
    (forall c', c' <> c -> conns w' !! c' = conns w !! c') /\
    (forall s, conns w !! c = Some s ->
       exists t, conns w' !! c = Some (withTx s t))).
  { intros w' s0 t0 Hs0 ->. split; [by rewrite length_insert|].
    split; [intros c' Hne; by rewrite list_lookup_insert_ne|].
    intros s Hs. simplify_eq. exists t0. by apply lookup_withTx. }
  destruct op; simpl.
  - destruct (Begin_conns D P c w) as [He|(s & t & Hc & _ & He)]; eauto.
  - destruct (Commit_conns D c w) as [He|(s & Hc & He)]; eauto.
  - destruct (Rollback_conns D c w) as [He|(s & Hc & He)]; eauto.
  - apply Hsame, CloseNow_conns.
  - apply Hsame. by rewrite Unwrap_world.
Qed.

End ConnectionExtras.

(** * Further properties of the provider *)

Section ProviderExtras.

Context (D : Driver) (P : Package).

Lemma execInitSQL_cases cfg h stmts w :
  execInitSQL D cfg (Some h) stmts w = (Val None, logs (DbExec h <$> stmts) w) \/
  exists n q e,
    stmts !! n = Some q /\
    execInitSQL D cfg (Some h) stmts w =
      (Val (Some (initSQLError cfg q e)), logs (DbExec h <$> take (S n) stmts) w).
Proof.
  revert w. induction stmts as [|q stmts IH]; intros w.
  - left. simpl. by rewrite logs_nil.
  - simpl. rewrite (bind_val _ _ _ _ _ (DB_Exec_some D h q w)).
    destruct (drv_Exec D (trace w) h q) as [e|].
    + right. exists 0%nat, q, e. split; [done|]. by rewrite take_0.
    + destruct (IH (log (DbExec h q) w)) as [->|(n & q' & e & Hn & ->)].
      * left. by rewrite logs_log.
      * right. exists (S n), q', e. split; [done|]. by rewrite logs_log.
Qed.

Lemma NewConnection_cases w :
  (exists dsn e, DsnDescriptor P (config w) = (dsn, Some e) /\
     NewConnection D P w = (Val (None, Some e), w)) \/
  (exists dsn e,
     DsnDescriptor P (config w) = (dsn, None) /\
     drv_Open D (trace w) (DriverName (config w)) dsn = inr e /\
     NewConnection D P w =
       (Val (None, Some (openError (config w) e)),
        log (SqlOpen (DriverName (config w)) dsn) w)) \/
  (exists dsn h n q e,
     DsnDescriptor P (config w) = (dsn, None) /\
     drv_Open D (trace w) (DriverName (config w)) dsn = inl h /\
     InitSQL (config w) !! n = Some q /\
     NewConnection D P w =
       (Val (None, Some (initSQLError (config w) q e)),
        logs (SqlOpen (DriverName (config w)) dsn
                :: (DbExec h <$> take (S n) (InitSQL (config w)))) w)) \/
  (exists dsn h,
     DsnDescriptor P (config w) = (dsn, None) /\
     drv_Open D (trace w) (DriverName (config w)) dsn = inl h /\
     NewConnection D P w =
       (Val (Some (length (conns w)), None),
        mkWorld (conns w ++ [freshConnection P w h]) (config w) (now w)
                (trace w ++ SqlOpen (DriverName (config w)) dsn
                   :: (DbExec h <$> InitSQL (config w))))).
Proof.
  destruct (DsnDescriptor P (config w)) as [dsn [e|]] eqn:Hd.
  { left. exists dsn, e. split; [done|]. by apply (NewConnection_dsn_error D P w dsn). }
  right.
  destruct (drv_Open D (trace w) (DriverName (config w)) dsn) as [h|e] eqn:Ho.
  2:{ left. exists dsn, e. split; [done|]. split; [done|].
      by apply (NewConnection_open_error D P w dsn). }
  right. rewrite (NewConnection_opened D P _ _ _ Hd Ho).
  destruct (execInitSQL_cases (config w) h (InitSQL (config w))
              (log (SqlOpen (DriverName (config w)) dsn) w))
    as [->|(n & q & e & Hn & ->)].
  - right. exists dsn, h. split; [done|]. split; [done|]. by rewrite logs_log.
  - left. exists dsn, h, n, q, e. split; [done|]. split; [done|].
    split; [done|]. by rewrite logs_log.
Qed.

Lemma Includes_openError cfg e :
  Includes (openError cfg e) (DriverName cfg) /\
  Includes (openError cfg e) (Descriptor cfg) /\
  Includes (openError cfg e) e.
Proof.
  unfold openError. repeat split.
  - by eexists "failed to open connection to ", _.
  - exists ("failed to open connection to " +:+ DriverName cfg +:+ " on "),
           (" due to " +:+ e).
    by rewrite !append_assoc.
  - exists ("failed to open connection to " +:+ DriverName cfg +:+ " on "
              +:+ Descriptor cfg +:+ " due to "), "".
    by rewrite append_nil_r, !append_assoc.
Qed.

(** X7. The two failures of [NewConnection] before any initialization
    statement. An error from the DSN accessor is returned as it is, and
    [sql.Open] is not called. An error from [sql.Open] is returned as
    "failed to open connection to <driver> on <descriptor> due to
    <cause>", after that one call; no statement is run. In both cases no
    connection is allocated. *)
Theorem X7_NewConnection_fails_before_init (w : World) (dsn : string) :
  (forall e, DsnDescriptor P (config w) = (dsn, Some e) ->
     NewConnection D P w = (Val (None, Some e), w)) /\
  (forall e, DsnDescriptor P (config w) = (dsn, None) ->
     drv_Open D (trace w) (DriverName (config w)) dsn = inr e ->
     NewConnection D P w =
       (Val (None, Some (openError (config w) e)),
        log (SqlOpen (DriverName (config w)) dsn) w) /\
     Includes (openError (config w) e) (DriverName (config w)) /\
     Includes (openError (config w) e) (Descriptor (config w)) /\
     Includes (openError (config w) e) e).
Proof.
  split.
  - intros e Hd. by apply (NewConnection_dsn_error D P w dsn).
  - intros e Hd Ho. split; [by apply (NewConnection_open_error D P w dsn)|].
    apply Includes_openError.
Qed.

Lemma connInv_freshConnection w h : connInv (freshConnection P w h).
Proof. split; [by intros [? ?] | simpl; lia]. Qed.

Lemma worldInv_app w s l :
  worldInv w -> connInv s -> l = conns w ++ [s] ->
  forall c s', l !! c = Some s' -> connInv s'.
Proof.
  intros Hw Hs -> c s' H.
  apply lookup_app_Some in H as [H|[_ H]]; [by eapply Hw|].
  apply list_lookup_singleton_Some in H as [_ <-]. done.
Qed.

(** X8. [NewConnection] has no panicking path of its own: whenever the
    DSN accessor, the dialect lookup and the driver answer, it returns.
    On success it has allocated exactly one connection, at the next free
    address: it holds the handle that [sql.Open] returned, no
    transaction, and the capability flag of the dialect of the configured
    driver. On failure the heap is as before. In both cases every
    connection that existed is untouched, and a heap that satisfies the
    invariant still does. *)
Theorem X8_NewConnection_allocates_one (w : World) :
  exists r w',
    NewConnection D P w = (Val r, w') /\
    ((exists dsn h,
        DsnDescriptor P (config w) = (dsn, None) /\
        drv_Open D (trace w) (DriverName (config w)) dsn = inl h /\
        r = (Some (length (conns w)), None) /\
        conns w' = conns w ++ [freshConnection P w h] /\
        db (freshConnection P w h) = Some h /\
        tx (freshConnection P w h) = None /\
        canHandleTransaction (freshConnection P w h) =
          CanHandleTransaction (GetDatastoreDialect P (DriverName (config w)))) \/
     (exists e, r = (None, Some e) /\ conns w' = conns w)) /\
    (worldInv w -> worldInv w').
Proof.
  destruct (NewConnection_cases w)
    as [(dsn & e & _ & ->)|[(dsn & e & _ & _ & ->)
        |[(dsn & h & n & q & e & _ & _ & _ & ->)|(dsn & h & Hd & Ho & ->)]]];
    eexists _, _; (split; [done|]).
  - split; [right; by eexists|done].
  - split; [right; by eexists|done].
  - split; [right; by eexists|done].
  - split; [left; by exists dsn, h|].
    intros Hw c s'. simpl.
    eapply worldInv_app; [done|apply connInv_freshConnection|done].
Qed.

(** X9. The calls of [NewConnection]: none, or one [sql.Open] with the
    configured driver name followed by the first so-many initialization
    statements, in their order, all on one handle. It never pings, tunes,
    closes or starts a transaction; in particular the tuning keys of the
    config are not applied to the handle it opens. *)
Theorem X9_NewConnection_calls (w : World) :
  trace (snd (NewConnection D P w)) = trace w \/
  exists dsn h n,
    trace (snd (NewConnection D P w)) =
      trace w ++ SqlOpen (DriverName (config w)) dsn
        :: (DbExec h <$> take n (InitSQL (config w))).
Proof.
  destruct (NewConnection_cases w)
    as [(dsn & e & _ & ->)|[(dsn & e & _ & _ & ->)
        |[(dsn & h & n & q & e & _ & _ & _ & ->)|(dsn & h & _ & _ & ->)]]].
  - by left.
  - right. exists dsn, 0%nat, 0%nat. by rewrite take_0.
  - right. by exists dsn, h, (S n).
  - right. exists dsn, h, (length (InitSQL (config w))). by rewrite firstn_all.
Qed.

End ProviderExtras.

Section GetExtras.

Context (D : Driver) (P : Package).

Lemma snd_relay r : snd (relay r) = snd r.
Proof. by destruct r as [[[? [?|]]|?] ?]. Qed.

(** The world [Get] leaves, on every path: that of the pool's own [Get],
    or that world after a ping, or the world [NewConnection] leaves when
    run after a ping and the tuning calls. *)
Lemma Get_worlds (w : World) :
  snd (Get D P w) = snd (AbstractConnectionProvider_Get P w) \/
  (exists h,
     snd (Get D P w) = log (DbPing h) (snd (AbstractConnectionProvider_Get P w))) \/
  (exists h,
     snd (Get D P w) =
       snd (NewConnection D P
              (logs (DbPing h
                       :: tuningCalls P
                            (config (snd (AbstractConnectionProvider_Get P w))) h)
                    (snd (AbstractConnectionProvider_Get P w))))).
Proof.
  remember (snd (Get D P w)) as wf eqn:Hwf. unfold Get in Hwf.
  destruct (AbstractConnectionProvider_Get P w) as [[[r [e|]]|msg] w1] eqn:Hg;
    [ rewrite (bind_val _ _ _ _ _ Hg) in Hwf; by left
    | rewrite (bind_val _ _ _ _ _ Hg) in Hwf
    | rewrite (bind_panic _ _ _ _ _ Hg) in Hwf; by left ].
  destruct r as [c|]; [|by left]. cbn [deref] in Hwf.
  rewrite (bind_val _ _ _ _ _ (eq_refl : ret c w1 = (Val c, w1))) in Hwf.
  destruct (conns w1 !! c) as [s|] eqn:Hc.
  2:{ erewrite bind_panic in Hwf; [by left|]. unfold Unwrap.
      rewrite decide_True by done. by apply bind_panic, load_panic. }
  rewrite (bind_val _ _ _ _ _ (Unwrap_db P _ _ _ Hc)) in Hwf.
  destruct (asSQLDb P (AnyDB (db s))) as [d [e|]]; [by left|].
  destruct (AbstractConnection s) as [a|] eqn:Ha.
  2:{ erewrite bind_panic in Hwf; [by left|]. unfold LastUsed.
      rewrite (bind_val _ _ _ _ _ (load_val _ _ _ Hc)), Ha. done. }
  rewrite (bind_val _ _ _ _ _ (LastUsed_val _ _ _ _ Hc Ha)) in Hwf.
  destruct (lastUsed a) as [t|]; [|by left].
  unfold bind at 1 in Hwf. unfold bind at 1, time_Now in Hwf.
  destruct (60 * time_Second <? time_Sub (now w1) t); [|by left].
  destruct d as [h|]; [|by left].
  rewrite DB_Ping_some in Hwf.
  destruct (drv_Ping D (trace w1) h) as [e|].
  - right. right. exists h.
    rewrite tuning_run, snd_relay in Hwf. by rewrite logs_log in Hwf.
  - right. left. by exists h.
Qed.

(** X10. Errors on the way into [Get]. An error from the pool's own
    [Get] is returned as it is, with a nil connection even if the pool
    handed one out. An error from the cast of the pooled connection's
    handle is returned the same way. In both cases [Get] stops there: no
    ping, no tuning, no new connection. *)
Theorem X10_Get_propagates_errors (w w1 : World) :
  (forall r e,
     AbstractConnectionProvider_Get P w = (Val (r, Some e), w1) ->
     Get D P w = (Val (None, Some e), w1)) /\
  (forall c s d e,
     AbstractConnectionProvider_Get P w = (Val (Some c, None), w1) ->
     conns w1 !! c = Some s ->
     asSQLDb P (AnyDB (db s)) = (d, Some e) ->
     Get D P w = (Val (None, Some e), w1)).
Proof.
  split.
  - intros r e Hg. unfold Get. by rewrite (bind_val _ _ _ _ _ Hg).
  - intros c s d e Hg Hc Hdb. unfold Get.
    rewrite (bind_val _ _ _ _ _ Hg). cbn [deref].
    rewrite (bind_val _ _ _ _ _ (eq_refl : ret c w1 = (Val c, w1))).
    by rewrite (bind_val _ _ _ _ _ (Unwrap_db P _ _ _ Hc)), Hdb.
Qed.

Lemma tuningCalls_not_close_or_tx cfg h :
  existsb isCloseOrTx (tuningCalls P cfg h) = false.
Proof.
  unfold tuningCalls.
  destruct (Has P cfg connMaxLifetimeMsKey);
    [destruct (GetDuration P cfg connMaxLifetimeMsKey time_Millisecond
                           defaultConnMaxLifetimeMs =? 0)|];
    by destruct (Has P cfg maxIdleConnsKey).
Qed.

Lemma execs_not_close_or_tx h (qs : list string) :
  existsb isCloseOrTx (DbExec h <$> qs) = false.
Proof. induction qs as [|q qs IH]; [done|]. simpl. exact IH. Qed.

Lemma NewConnection_not_close_or_tx w :
  exists es, trace (snd (NewConnection D P w)) = trace w ++ es /\
             existsb isCloseOrTx es = false.
Proof.
  destruct (NewConnection_cases D P w)
    as [(dsn & e & _ & ->)|[(dsn & e & _ & _ & ->)
        |[(dsn & h & n & q & e & _ & _ & _ & ->)|(dsn & h & _ & _ & ->)]]].
  - exists []. by rewrite app_nil_r.
  - by eexists [_].
  - eexists. split; [done|]. simpl. apply execs_not_close_or_tx.
  - eexists. split; [done|]. simpl. apply execs_not_close_or_tx.
Qed.

(** X11. What [Get] never asks of the driver. Beyond the calls of the
    pool's own [Get], on every path, returning or panicking, [Get] adds
    no [Close], no [Begin], no [Commit] and no [Rollback]: a stale handle
    is abandoned open, and no transaction is started or ended. *)
Theorem X11_Get_never_closes (w : World) :
  exists es,
    trace (snd (Get D P w)) = trace (snd (AbstractConnectionProvider_Get P w)) ++ es /\
    existsb isCloseOrTx es = false.
Proof.
  destruct (Get_worlds w) as [->|[[h ->]|[h ->]]].
  - exists []. by rewrite app_nil_r.
  - by exists [DbPing h].
  - destruct (NewConnection_not_close_or_tx
                (logs (DbPing h
                         :: tuningCalls P
                              (config (snd (AbstractConnectionProvider_Get P w))) h)
                      (snd (AbstractConnectionProvider_Get P w))))
      as (es & -> & Hes).
    eexists. split; [simpl; by rewrite <- app_assoc|].
    simpl. rewrite existsb_app, tuningCalls_not_close_or_tx. exact Hes.
Qed.

(** X12. What [Get] does to the heap. Beyond what the pool's own [Get]
    did, on every path, [Get] writes no existing connection: the heap is
    the same, or it has one more connection at its end, which holds no
    transaction. A heap that satisfies the invariant still does. *)
Theorem X12_Get_leaves_pooled_connections (w : World) :
  (conns (snd (Get D P w)) = conns (snd (AbstractConnectionProvider_Get P w)) \/
   exists s,
     conns (snd (Get D P w)) =
       conns (snd (AbstractConnectionProvider_Get P w)) ++ [s] /\
     tx s = None) /\
  (worldInv (snd (AbstractConnectionProvider_Get P w)) ->
   worldInv (snd (Get D P w))).
Proof.
  destruct (Get_worlds w) as [->|[[h ->]|[h ->]]].
  - split; [by left|done].
  - split; [by left|done].
  - set (w2 := logs _ _).
    destruct (NewConnection_cases D P w2)
      as [(dsn & e & _ & ->)|[(dsn & e & _ & _ & ->)
          |[(dsn & h' & n & q & e & _ & _ & _ & ->)|(dsn & h' & _ & _ & ->)]]];
      try (split; [by left|done]).
    split; [right; by eexists|].
    intros Hw c s'. simpl.
    eapply worldInv_app; [exact Hw|apply connInv_freshConnection|done].
Qed.

(** X13. Construction twice, and out of range. For a pool size that
    [make] accepts the constructor calls nothing on the driver and writes
    no connection, and constructing again from the config it left changes
    nothing more and yields a pool of the same capacity. For a negative
    pool size, and for one above the runtime's largest channel size, it
    panics with "makechan: size out of range", and config, heap and log
    are as before. *)
Theorem X13_constructor_idempotent (limit : Z) (w : World) :
  (0 <= MaxPoolSize (config w) ->
   (if MaxPoolSize (config w) =? 0 then 1 else MaxPoolSize (config w)) <= limit ->
   exists p w',
     newSQLConnectionProvider limit w = (Val p, w') /\
     conns w' = conns w /\ trace w' = trace w /\
     newSQLConnectionProvider limit w' = (Val p, w')) /\
  (MaxPoolSize (config w) < 0 ->
   newSQLConnectionProvider limit w = (Panic "makechan: size out of range", w)) /\
  (0 < MaxPoolSize (config w) -> limit < MaxPoolSize (config w) ->
   newSQLConnectionProvider limit w = (Panic "makechan: size out of range", w)).
Proof.
  split; [|split].
  - intros H Hle. rewrite newSQLConnectionProvider_run.
    destruct (Z.eqb_spec (MaxPoolSize (config w)) 0) as [H0|H0].
    + destruct (Z.ltb_spec limit 1); [lia|]. cbv zeta.
      eexists _, _. split; [done|]. split; [done|]. split; [done|].
      rewrite newSQLConnectionProvider_run. simpl.
      by destruct (Z.ltb_spec limit 1); [lia|].
    + destruct (Z.ltb_spec (MaxPoolSize (config w)) 0); [lia|].
      destruct (Z.ltb_spec limit (MaxPoolSize (config w))); [lia|]. simpl.
      eexists _, _. split; [done|]. split; [done|]. split; [done|].
      rewrite newSQLConnectionProvider_run.
      destruct (Z.eqb_spec (MaxPoolSize (config w)) 0); [done|].
      destruct (Z.ltb_spec (MaxPoolSize (config w)) 0); [lia|].
      by destruct (Z.ltb_spec limit (MaxPoolSize (config w))); [lia|].
  - intros H. rewrite newSQLConnectionProvider_run.
    destruct (Z.eqb_spec (MaxPoolSize (config w)) 0); [lia|].
    by destruct (Z.ltb_spec (MaxPoolSize (config w)) 0); [|lia].
  - intros H Hgt. rewrite newSQLConnectionProvider_run.
    destruct (Z.eqb_spec (MaxPoolSize (config w)) 0); [lia|].
    destruct (Z.ltb_spec limit (MaxPoolSize (config w))); [|lia].
    by rewrite orb_true_r.
Qed.

End GetExtras.

Section EndToEnd.

Context (D : Driver) (P : Package).

Lemma txOps_nontransactional ops c s w :
  conns w !! c = Some s -> canHandleTransaction s = false ->
  txOps D P ops c w = (Val (replicate (length ops) None), w).
Proof.
  intros Hc Hf. induction ops as [|op ops IH]; [done|].
  rewrite txOps_cons, (txOp_nontransactional D P op _ _ _ Hc Hf), IH. done.
Qed.

(** X14. A connection manufactured by [NewConnection] starts without a
    transaction and with the capability of the dialect registered for the
    configured driver. If the dialect has no transactions, every sequence
    of [Begin], [Commit] and [Rollback] on the new connection returns nil
    and changes nothing; if it has, [Commit] and [Rollback] before any
    [Begin] return "no active transaction". *)
Theorem X14_manufactured_connection_follows_dialect (w w' : World)
    (c' : Connection) :
  NewConnection D P w = (Val (Some c', None), w') ->
  (exists s, conns w' !! c' = Some s /\ tx s = None /\
             canHandleTransaction s =
               CanHandleTransaction (GetDatastoreDialect P (DriverName (config w)))) /\
  (CanHandleTransaction (GetDatastoreDialect P (DriverName (config w))) = false ->
   forall ops, txOps D P ops c' w' = (Val (replicate (length ops) None), w')) /\
  (CanHandleTransaction (GetDatastoreDialect P (DriverName (config w))) = true ->
   Commit D c' w' = (Val (Some "no active transaction"), w') /\
   Rollback D c' w' = (Val (Some "no active transaction"), w')).
Proof.
  intros Hn.
  assert (exists h, conns w' !! c' = Some (freshConnection P w h)) as [h Hc].
  { destruct (NewConnection_cases D P w)
      as [(dsn & e & _ & He)|[(dsn & e & _ & _ & He)
          |[(dsn & h & n & q & e & _ & _ & _ & He)|(dsn & h & _ & _ & He)]]];
      rewrite He in Hn; try discriminate.
    injection Hn as <- <-. exists h. simpl.
    rewrite lookup_app_r by done. by rewrite Nat.sub_diag. }
  split; [by eexists|]. split.
  - intros Hf ops. by eapply txOps_nontransactional.
  - intros Ht. split; [by eapply Commit_no_tx | by eapply Rollback_no_tx].
Qed.

Lemma execs_not_on (h h' : DbHandle) (qs : list string) :
  h' <> h -> existsb (onHandle h) (DbExec h' <$> qs) = false.
Proof.
  intros Hne. apply Nat.eqb_neq in Hne.
  induction qs as [|q qs IH]; [done|].
  change (Nat.eqb h' h || existsb (onHandle h) (DbExec h' <$> qs) = false).
  by rewrite Hne, IH.
Qed.

(** X15. The order of calls when the probe of a stale connection fails.
    The ping and then the tuning calls go to the stale handle [h]. If
    the DSN accessor fails nothing follows. Otherwise [sql.Open] is
    called next; if it fails nothing follows, and if it returns the
    handle [h'] the only further calls are initialization statements, in
    order, on [h']. So when [h'] is another handle than the stale one,
    no call reaches the stale handle after the tuning calls: it is not
    closed. *)
Theorem X15_failed_probe_call_order (w w1 : World) (c : Connection)
    (s : sqlConnection) (h : DbHandle) (a : AbstractConnectionT) (t : Time)
    (e : Error) :
  AbstractConnectionProvider_Get P w = (Val (Some c, None), w1) ->
  conns w1 !! c = Some s ->
  asSQLDb P (AnyDB (db s)) = (Some h, None) ->
  AbstractConnection s = Some a ->
  lastUsed a = Some t ->
  stale (now w1) t ->
  drv_Ping D (trace w1) h = Some e ->
  (exists dsn e',
     DsnDescriptor P (config w1) = (dsn, Some e') /\
     trace (snd (Get D P w)) = afterTuning P w1 h) \/
  (exists dsn,
     DsnDescriptor P (config w1) = (dsn, None) /\
     ((exists e',
         drv_Open D (afterTuning P w1 h) (DriverName (config w1)) dsn = inr e' /\
         trace (snd (Get D P w)) =
           afterTuning P w1 h ++ [SqlOpen (DriverName (config w1)) dsn]) \/
      (exists h' n,
         drv_Open D (afterTuning P w1 h) (DriverName (config w1)) dsn = inl h' /\
         trace (snd (Get D P w)) =
           afterTuning P w1 h ++ SqlOpen (DriverName (config w1)) dsn
             :: (DbExec h' <$> take n (InitSQL (config w1))) /\
         (h' <> h ->
          existsb (onHandle h)
                  (SqlOpen (DriverName (config w1)) dsn
                     :: (DbExec h' <$> take n (InitSQL (config w1)))) = false)))).
Proof.
  intros Hg Hc Hdb Ha Hl Hs Hp.
  rewrite (Get_checked_out D P _ _ _ _ _ _ Hg Hc Hdb Ha), Hl.
  apply time_Sub_stale in Hs. rewrite Hs, Hp, snd_relay.
  set (w2 := logs _ w1).
  destruct (NewConnection_cases D P w2)
    as [(dsn & e' & Hd & ->)|[(dsn & e' & Hd & Ho & ->)
        |[(dsn & h' & n & q & e' & Hd & Ho & _ & ->)|(dsn & h' & Hd & Ho & ->)]]].
  - left. by exists dsn, e'.
  - right. exists dsn. split; [done|]. left. exists e'. split; [done|].
    unfold afterTuning. simpl. by rewrite <- app_assoc.
  - right. exists dsn. split; [done|]. right. exists h', (S n).
    split; [done|]. split.
    + unfold afterTuning. simpl. by rewrite <- app_assoc.
    + intros Hne. simpl. by apply execs_not_on.
  - right. exists dsn. split; [done|]. right.
    exists h', (length (InitSQL (config w1))).
    split; [done|]. rewrite firstn_all. split.
    + unfold afterTuning. simpl. by rewrite <- app_assoc.
    + intros Hne. simpl. by apply execs_not_on.
Qed.

End EndToEnd.

(** ** The further properties at the sample installation *)

Lemma X1_witness :
  CloseNow (sampleDriver false "") samplePackage 0%nat worldActive =
    (Val None,
     logs [DbSetConnMaxLifetime 7%nat 1000000000; DbClose 7%nat] worldActive) /\
  conns (snd (CloseNow (sampleDriver false "") samplePackage 0%nat worldActive))
    !! 0%nat = Some (sampleConnection true (Some 3%nat) None).
Proof.
  exact (X1_CloseNow_retires_then_closes (sampleDriver false "") samplePackage
           0%nat (sampleConnection true (Some 3%nat) None) 7%nat worldActive
           eq_refl eq_refl).
Defined.

Lemma X2_witness :
  CloseNow (sampleDriver false "") packageBadCast 0%nat worldIdle
    = (Val (Some "failed cast as sql.DB"), worldIdle) /\
  (canHandleTransaction (sampleConnection true None None) = true ->
   Begin (sampleDriver false "") packageBadCast 0%nat worldIdle
     = (Val (Some "failed cast as sql.DB"), worldIdle)).
Proof.
  exact (X2_cast_error_stops (sampleDriver false "") packageBadCast 0%nat
           (sampleConnection true None None) None "failed cast as sql.DB"
           worldIdle eq_refl eq_refl).
Defined.

Lemma X3_witness :
  exists w1,
    Begin (sampleDriver false "") samplePackage 0%nat worldIdle = (Val None, w1) /\
    Unwrap samplePackage 0%nat (AnyTx None) w1 = (Val (AnyTx (Some 0%nat)), w1) /\
    (exists w2,
        Commit (sampleDriver false "") 0%nat w1 = (Val None, w2) /\
        trace w2 = [DbBegin 7%nat; TxCommit 0%nat] /\
        Unwrap samplePackage 0%nat (AnyTx None) w2 = (Val (AnyTx None), w2)) /\
    (exists w2,
        Rollback (sampleDriver false "") 0%nat w1 = (Val None, w2) /\
        trace w2 = [DbBegin 7%nat; TxRollback 0%nat] /\
        Unwrap samplePackage 0%nat (AnyTx None) w2 = (Val (AnyTx None), w2)).
Proof.
  assert (Hne : sqlDbPointer samplePackage <> sqlTxtPointer samplePackage)
    by discriminate.
  exact (X3_transaction_round_trip (sampleDriver false "") samplePackage 0%nat
           (sampleConnection true None None) 7%nat 0%nat worldIdle
           eq_refl eq_refl eq_refl eq_refl Hne).
Defined.

Lemma X4_witness :
  Begin refusingDriver samplePackage 0%nat worldActive
    = (Val (Some "too many clients"), log (DbBegin 7%nat) worldActive) /\
  conns (snd (Begin refusingDriver samplePackage 0%nat worldActive)) !! 0%nat
    = Some (sampleConnection true (Some 3%nat) None).
Proof.
  exact (X4_Begin_refused_keeps_state refusingDriver samplePackage 0%nat
           (sampleConnection true (Some 3%nat) None) 7%nat "too many clients"
           worldActive eq_refl eq_refl eq_refl eq_refl).
Defined.

Lemma X5_witness :
  exists w3,
    txOps (sampleDriver false "") samplePackage
          [OpBegin; OpBegin; OpCommit; OpCommit] 0%nat worldIdle =
      (Val [None; None; None; Some "no active transaction"], w3) /\
    trace w3 = [DbBegin 7%nat; DbBegin 7%nat; TxCommit 1%nat] /\
    conns w3 !! 0%nat = Some (sampleConnection true None None).
Proof.
  exact (X5_second_Begin_drops_first (sampleDriver false "") samplePackage 0%nat
           (sampleConnection true None None) 7%nat 0%nat 1%nat worldIdle
           eq_refl eq_refl eq_refl eq_refl eq_refl).
Defined.

Lemma X7_witness :
  NewConnection (sampleDriver false "") packageBadDsn worldIdle
    = (Val (None, Some "missing credentials"), worldIdle) /\
  NewConnection refusingDriver samplePackage worldIdle =
    (Val (None,
          Some "failed to open connection to pg on localhost/orders due to connection refused"),
     log (SqlOpen "pg" "localhost/orders") worldIdle).
Proof.
  split.
  - exact (proj1 (X7_NewConnection_fails_before_init (sampleDriver false "")
                    packageBadDsn worldIdle "")
                 "missing credentials" eq_refl).
  - exact (proj1 (proj2 (X7_NewConnection_fails_before_init refusingDriver
                           samplePackage worldIdle "localhost/orders")
                        "connection refused" eq_refl eq_refl)).
Defined.

Lemma X10_witness :
  Get (sampleDriver false "") packageBadPool worldIdle
    = (Val (None, Some "pool exhausted"), worldIdle) /\
  Get (sampleDriver false "") packageBadCast worldIdle
    = (Val (None, Some "failed cast as sql.DB"), worldIdle).
Proof.
  split.
  - exact (proj1 (X10_Get_propagates_errors (sampleDriver false "") packageBadPool
                    worldIdle worldIdle)
                 (Some 0%nat) "pool exhausted" eq_refl).
  - exact (proj2 (X10_Get_propagates_errors (sampleDriver false "") packageBadCast
                    worldIdle worldIdle)
                 0%nat (sampleConnection true None None) None
                 "failed cast as sql.DB" eq_refl eq_refl eq_refl).
Defined.

Lemma X13_witness :
  (exists p w',
      newSQLConnectionProvider sampleChanLimit worldIdle = (Val p, w') /\
      conns w' = conns worldIdle /\ trace w' = trace worldIdle /\
      newSQLConnectionProvider sampleChanLimit w' = (Val p, w')) /\
  newSQLConnectionProvider sampleChanLimit worldNegative
    = (Panic "makechan: size out of range", worldNegative) /\
  newSQLConnectionProvider sampleChanLimit worldHuge
    = (Panic "makechan: size out of range", worldHuge).
Proof.
  split; [|split].
  - apply (proj1 (X13_constructor_idempotent sampleChanLimit worldIdle)).
    + simpl; lia.
    + vm_compute; discriminate.
  - apply (proj1 (proj2 (X13_constructor_idempotent sampleChanLimit worldNegative))).
    simpl; lia.
  - apply (proj2 (proj2 (X13_constructor_idempotent sampleChanLimit worldHuge))).
    + reflexivity.
    + reflexivity.
Defined.

Lemma X14_witness :
  NewConnection (sampleDriver false "") samplePackage worldIdle =
    (Val (Some 1%nat, None),
     snd (NewConnection (sampleDriver false "") samplePackage worldIdle)) /\
  Commit (sampleDriver false "") 1%nat
         (snd (NewConnection (sampleDriver false "") samplePackage worldIdle)) =
    (Val (Some "no active transaction"),
     snd (NewConnection (sampleDriver false "") samplePackage worldIdle)).
Proof.
  assert (H : NewConnection (sampleDriver false "") samplePackage worldIdle =
    (Val (Some 1%nat, None),
     snd (NewConnection (sampleDriver false "") samplePackage worldIdle)))
    by reflexivity.
  split; [exact H|].
  exact (proj1 (proj2 (proj2 (X14_manufactured_connection_follows_dialect
                                (sampleDriver false "") samplePackage worldIdle _
                                1%nat H)) eq_refl)).
Defined.

Lemma X15_witness :
  drv_Open (sampleDriver true "") (afterTuning samplePackage worldOld 7%nat)
           "pg" "localhost/orders" = inl 3%nat /\
  trace (snd (Get (sampleDriver true "") samplePackage worldOld)) =
    [DbPing 7%nat; DbSetConnMaxLifetime 7%nat 5000000000;
     DbSetMaxIdleConns 7%nat 2; SqlOpen "pg" "localhost/orders";
     DbExec 3%nat "SET search_path = app"; DbExec 3%nat "SET x = 1"] /\
  ((exists dsn e',
      DsnDescriptor samplePackage (config worldOld) = (dsn, Some e') /\
      trace (snd (Get (sampleDriver true "") samplePackage worldOld)) =
        afterTuning samplePackage worldOld 7%nat) \/
   (exists dsn,
      DsnDescriptor samplePackage (config worldOld) = (dsn, None) /\
      ((exists e',
          drv_Open (sampleDriver true "") (afterTuning samplePackage worldOld 7%nat)
                   (DriverName (config worldOld)) dsn = inr e' /\
          trace (snd (Get (sampleDriver true "") samplePackage worldOld)) =
            afterTuning samplePackage worldOld 7%nat
              ++ [SqlOpen (DriverName (config worldOld)) dsn]) \/
       (exists h' n,
          drv_Open (sampleDriver true "") (afterTuning samplePackage worldOld 7%nat)
                   (DriverName (config worldOld)) dsn = inl h' /\
          trace (snd (Get (sampleDriver true "") samplePackage worldOld)) =
            afterTuning samplePackage worldOld 7%nat
              ++ SqlOpen (DriverName (config worldOld)) dsn
              :: (DbExec h' <$> take n (InitSQL (config worldOld))) /\
          (h' <> 7%nat ->
           existsb (onHandle 7%nat)
                   (SqlOpen (DriverName (config worldOld)) dsn
                      :: (DbExec h' <$> take n (InitSQL (config worldOld))))
             = false))))).
Proof.
  assert (Hs : stale (now worldOld) 0) by reflexivity.
  split; [reflexivity|]. split; [reflexivity|].
  exact (X15_failed_probe_call_order (sampleDriver true "") samplePackage
           worldOld worldOld 0%nat (sampleConnection true None (Some 0)) 7%nat
           (mkAbstractConnection (Some 0)) 0 "bad connection"
           eq_refl eq_refl eq_refl eq_refl eq_refl Hs eq_refl).
Defined.
